(** * morfi.parsing: PGN headers to tabular records

    A shallow embedding of [src/morfi/parsing.py] and the properties of
    its two components: the record mapper ([parse_game] with the
    [HeadersData] model) and the batch loader ([parse_pgn]), together
    with the command-line path ([_main]).

    Python values are modelled as follows.
    - A [chess.pgn] header mapping is a finite map from tag names to
      strings; [headers.get(k)] is the lookup [headers !! k], with
      [None] for an absent tag.
    - Python's unbounded [int] is [Z].
    - A raised exception is a value of [PyException]; code that may raise
      returns a sum, and a run of the loader records the exception that
      ended it.
    - [print] appends a line to an explicit standard-output log. *)

From Stdlib Require Import ZArith Ascii String List Lia.
From stdpp Require Import base option list gmap strings.

Local Open Scope Z_scope.

(** ** Data model *)

(** [chess.pgn.Headers]: tag name to tag value. *)
Abbreviation Headers := (gmap string string).

(** A parsed game as returned by [chess.pgn.read_game]; only its
    [headers] attribute is read by this module. *)
Record Game := { headers : Headers }.

(** The two ways a field can be rejected by the model class: the value is
    [None] where a value is required, or a string does not denote an
    integer. *)
Inductive ErrorType :=
| none_not_allowed
| integer_error.

(** One entry of a validation error: the offending field and the reason. *)
Definition FieldError : Type := string * ErrorType.

Inductive PyException :=
| ValidationError (errors : list FieldError)
| ZeroDivisionError
| TypeError
| FileNotFoundError (filename : string)
| StreamError (what : string).

(** [class HeadersData(pydantic.BaseModel)], fields in declaration order. *)
Record HeadersData := {
  event_name : string;
  result : string;
  termination : string;
  time_control : string;
  date : string;
  time : string;
  white_name : string;
  white_title : option string;
  white_elo : Z;
  white_elo_diff : option Z;
  black_name : string;
  black_title : option string;
  black_elo : Z;
  black_elo_diff : option Z
}.

(** ** Field validation

    Constructing a [HeadersData] validates every keyword argument against
    the annotation of its field, in declaration order, and reports all
    the fields that were rejected.  A validated field is either a value
    or a list of field errors; [vap] combines them and accumulates the
    errors of both sides. *)

Definition Validated (A : Type) : Type := A + list FieldError.

Definition vap {A B} (f : Validated (A → B)) (x : Validated A) : Validated B :=
  match f, x with
  | inl g, inl a => inl (g a)
  | inl _, inr e => inr e
  | inr e, inl _ => inr e
  | inr e1, inr e2 => inr (e1 ++ e2)
  end.

Infix "<*>" := vap (at level 61, left associativity).

(** Annotation [str]: a string is taken as it is, [None] is rejected. *)
Definition str_field (loc : string) (v : option string) : Validated string :=
  match v with
  | Some s => inl s
  | None => inr [(loc, none_not_allowed)]
  end.

(** Annotation [Optional[str]]: [None] is a valid value. *)
Definition optional_str_field (loc : string) (v : option string)
  : Validated (option string) := inl v.

Section RecordMapper.

(** The coercion of a header string to an integer performed by the
    model class for an [int] annotation ([None] when the string is
    rejected).  It belongs to the validation library, not to this
    module, and is a parameter of the development. *)
Variable int_validator : string → option Z.

(** Annotation [int]. *)
Definition int_field (loc : string) (v : option string) : Validated Z :=
  match v with
  | None => inr [(loc, none_not_allowed)]
  | Some s =>
      match int_validator s with
      | Some n => inl n
      | None => inr [(loc, integer_error)]
      end
  end.

(** Annotation [Optional[int]]. *)
Definition optional_int_field (loc : string) (v : option string)
  : Validated (option Z) :=
  match v with
  | None => inl None
  | Some s =>
      match int_validator s with
      | Some n => inl (Some n)
      | None => inr [(loc, integer_error)]
      end
  end.

(** [HeadersData(event_name=..., ...)]: the arguments are given here in
    the declaration order of the fields. *)
Definition HeadersData_init
    (event_name_ result_ termination_ time_control_ date_ time_
     white_name_ white_title_ white_elo_ white_elo_diff_
     black_name_ black_title_ black_elo_ black_elo_diff_ : option string)
  : HeadersData + PyException :=
  match
    inl Build_HeadersData
      <*> str_field "event_name" event_name_
      <*> str_field "result" result_
      <*> str_field "termination" termination_
      <*> str_field "time_control" time_control_
      <*> str_field "date" date_
      <*> str_field "time" time_
      <*> str_field "white_name" white_name_
      <*> optional_str_field "white_title" white_title_
      <*> int_field "white_elo" white_elo_
      <*> optional_int_field "white_elo_diff" white_elo_diff_
      <*> str_field "black_name" black_name_
      <*> optional_str_field "black_title" black_title_
      <*> int_field "black_elo" black_elo_
      <*> optional_int_field "black_elo_diff" black_elo_diff_
  with
  | inl data => inl data
  | inr errors => inr (ValidationError errors)
  end.

(** [parse_game(game)]. *)
Definition parse_game (game : Game) : HeadersData + PyException :=
  let headers := headers game in
  HeadersData_init
    (headers !! "Event")
    (headers !! "Result")
    (headers !! "Termination")
    (headers !! "TimeControl")
    (headers !! "UTCDate")
    (headers !! "UTCTime")
    (headers !! "White")
    (headers !! "WhiteTitle")
    (headers !! "WhiteElo")
    (headers !! "WhiteRatingDiff")
    (headers !! "Black")
    (headers !! "BlackTitle")
    (headers !! "BlackElo")
    (headers !! "BlackRatingDiff").

End RecordMapper.

(** ** The game source

    [chess.pgn.read_game(handle)] returns the next game of the stream, or
    [None] at the end of the stream, or raises when the stream cannot be
    read.  A handle is the sequence of games still to be read and the
    error, if any, that the reader raises once they are used up. *)

Record Handle := {
  pending : list Game;
  fault : option PyException
}.

Definition read_game (handle : Handle) : (option Game + PyException) * Handle :=
  match pending handle with
  | game :: rest => (inl (Some game), {| pending := rest; fault := fault handle |})
  | [] =>
      match fault handle with
      | None => (inl None, handle)
      | Some e => (inr e, handle)
      end
  end.

(** ** Standard output *)

Inductive message :=
| Loading (i : Z)                 (* "Loading the {i}st game..." *)
| Loaded (n : nat)                (* "Loaded {len(games)} games." *)
| Found (n : nat)                 (* "Found {len(exceptions)} exceptions:" *)
| ExceptionLine (e : PyException) (h : Headers)
                                  (* "   Exception: {e}   Headers: {h}." *)
| Saving (path : string)          (* "Saving the data to {path}..." *)
| Saved.                          (* "Saved. Script run finished." *)

(** ** The batch loader *)

(** The local variables of [parse_pgn] and what it has printed. *)
Record Loader := {
  games : list HeadersData;
  damaged_headers : list Headers;
  exceptions : list PyException;
  stdout : list message
}.

Definition Loader_init : Loader :=
  {| games := []; damaged_headers := []; exceptions := []; stdout := [] |}.

Definition print (m : message) (st : Loader) : Loader :=
  {| games := games st; damaged_headers := damaged_headers st;
     exceptions := exceptions st; stdout := stdout st ++ [m] |}.

(** How a run of the loop ends: the exception that left it, if any, the
    handle as the loop left it, and the local variables at that point. *)
Record Run := {
  raised : option PyException;
  handle : Handle;
  locals : Loader
}.

(** [a % b] on Python integers: the result has the sign of [b], and a
    zero divisor raises. *)
Definition py_mod (a b : Z) : Z + PyException :=
  if b =? 0 then inr ZeroDivisionError else inl (a mod b).

(** [int(1e18)] and [10_000], the defaults of [parse_pgn]. *)
Definition default_max_games : Z := 10 ^ 18.
Definition default_report_each : Z := 10000.

Section BatchLoader.

Variable int_validator : string → option Z.
Variables max_games report_each : Z.

(** The [try]/[except Exception] of the loop body, lines 104-108. *)
Definition record_game (game : Game) (st : Loader) : Loader :=
  match parse_game int_validator game with
  | inl data =>
      {| games := games st ++ [data]; damaged_headers := damaged_headers st;
         exceptions := exceptions st; stdout := stdout st |}
  | inr e =>
      {| games := games st; damaged_headers := damaged_headers st ++ [headers game];
         exceptions := exceptions st ++ [e]; stdout := stdout st |}
  end.

(** Lines 97-98. *)
Definition report (i : Z) (st : Loader) : Loader + PyException :=
  match py_mod i report_each with
  | inl r => inl (if r =? 1 then print (Loading i) st else st)
  | inr e => inr e
  end.

(** [for i in range(max_games)], from index [i] on.  The recursion is on
    the games still to be read: the [match] on them is the call
    [chess.pgn.read_game(handle)] of line 100 (see [loop_read_game]),
    and its [[]] branch is the [break] of line 102. *)
Fixpoint loop (games_left : list Game) (fault_ : option PyException)
    (i : Z) (st : Loader) : Run :=
  let here := {| pending := games_left; fault := fault_ |} in
  if i <? max_games then
    match report i st with
    | inr e => {| raised := Some e; handle := here; locals := st |}
    | inl st =>
        match games_left with
        | [] =>
            match fault_ with
            | None => {| raised := None; handle := here; locals := st |}
            | Some e => {| raised := Some e; handle := here; locals := st |}
            end
        | game :: rest => loop rest fault_ (i + 1) (record_game game st)
        end
    end
  else {| raised := None; handle := here; locals := st |}.

(** The body of [with open(filepath) as handle:], lines 91-109. *)
Definition parse_pgn_on (handle : Handle) : Run :=
  loop (pending handle) (fault handle) 0 Loader_init.

End BatchLoader.

(** The value of [return games, damaged_headers, exceptions]. *)
Definition returned (run : Run)
  : option (list HeadersData * list Headers * list PyException) :=
  match raised run with
  | None => Some (games (locals run), damaged_headers (locals run), exceptions (locals run))
  | Some _ => None
  end.

(** The number of games the loop took from a handle that held [src]. *)
Definition pulled (src : Handle) (run : Run) : nat :=
  (length (pending src) - length (pending (handle run)))%nat.

(** ** The command-line path *)

(** A value of the dictionary of a record. *)
Inductive Value :=
| VStr (s : string)
| VInt (n : Z)
| VNone.

Definition of_optional {A} (f : A → Value) (o : option A) : Value :=
  match o with
  | Some a => f a
  | None => VNone
  end.

(** [x.dict()]: the fields of the model and their values, in declaration
    order. *)
Definition dict (x : HeadersData) : list (string * Value) :=
  [ ("event_name", VStr (event_name x));
    ("result", VStr (result x));
    ("termination", VStr (termination x));
    ("time_control", VStr (time_control x));
    ("date", VStr (date x));
    ("time", VStr (time x));
    ("white_name", VStr (white_name x));
    ("white_title", of_optional VStr (white_title x));
    ("white_elo", VInt (white_elo x));
    ("white_elo_diff", of_optional VInt (white_elo_diff x));
    ("black_name", VStr (black_name x));
    ("black_title", of_optional VStr (black_title x));
    ("black_elo", VInt (black_elo x));
    ("black_elo_diff", of_optional VInt (black_elo_diff x)) ].

(** A cell of a data frame.  A frame has one type of data per column,
    which [pd.DataFrame] infers from all the values of the column, so
    that what a cell holds depends on its value and on its column:
    - [Plain v]: the value as it is; [Plain VNone] is a missing value
      (a [None] in a column of objects, a NaN in a column of floats);
    - [Float n]: the float of value [n], written [n.0] where the integer
      is written [n];
    - [Inferred column v]: what the frame holds for [v] in a column with
      these values, in the cases that are not detailed here. *)
Inductive Cell :=
| Plain (v : Value)
| Float (n : Z)
| Inferred (column : list Value) (v : Value).

Definition is_str (v : Value) : bool :=
  match v with
  | VStr _ => true
  | _ => false
  end.

Definition is_missing (v : Value) : bool :=
  match v with
  | VNone => true
  | _ => false
  end.

(** The integers that a float holds exactly. *)
Definition exact_as_float (v : Value) : bool :=
  match v with
  | VInt n => (- 2 ^ 53 <=? n) && (n <=? 2 ^ 53)
  | _ => true
  end.

(** The cell of a value in a column.  Strings and missing values stay as
    they are.  An integer stays an integer in a column of objects (one
    that holds a string) and in a column of integers; in a column that
    holds integers and missing values, and nothing else, the integers
    are stored as floats. *)
Definition cell (column : list Value) (v : Value) : Cell :=
  match v with
  | VInt n =>
      if existsb is_str column then Plain v
      else if existsb is_missing column then
        if forallb exact_as_float column then Float n else Inferred column v
      else Plain v
  | _ => Plain v
  end.

(** A data frame: its column labels and its rows, one cell per column. *)
Record DataFrame := {
  columns : list string;
  rows : list (list Cell)
}.

Fixpoint assoc (k : string) (record : list (string * Value)) : option Value :=
  match record with
  | [] => None
  | (k', v) :: rest => if decide (k = k') then Some v else assoc k rest
  end.

(** The labels of a frame built from records: the keys of the records in
    the order in which they first appear. *)
Definition add_labels (labels : list string) (record : list (string * Value))
  : list string :=
  foldl (λ acc k, if decide (k ∈ acc) then acc else acc ++ [k]) labels record.*1.

(** [pd.DataFrame(records)] for a sequence of dictionaries: the columns
    come from the keys found in the data, a record without a key of some
    column has a missing value there, and each value is stored as the
    cell that its column makes of it. *)
Definition DataFrame_of (records : list (list (string * Value))) : DataFrame :=
  let labels := foldl add_labels [] records in
  let value k record := default VNone (assoc k record) in
  {| columns := labels;
     rows := map (λ record,
                    map (λ k, cell (map (value k) records) (value k record)) labels)
               records |}.

(** The file written by [to_csv]: the header row and the data rows. *)
Record CsvFile := {
  header_row : list string;
  data_rows : list (list Cell)
}.

(** [df.to_csv(path, index=...)]: with [index=True] a first column holds
    the row labels [0, 1, ...] under an empty label. *)
Definition to_csv (df : DataFrame) (index : bool) : CsvFile :=
  if index then
    {| header_row := "" :: columns df;
       data_rows := imap (λ k row, Plain (VInt (Z.of_nat k)) :: row) (rows df) |}
  else
    {| header_row := columns df; data_rows := rows df |}.

(** The parsed command line. *)
Record Namespace := {
  INPUT_PGN : string;
  OUTPUT_CSV : string;
  max_games : Z
}.

(** What a run of the script leaves behind: its standard output, the
    file it wrote, and the exception it ended with. *)
Record Process := {
  printed : list message;
  written : option (string * CsvFile);
  uncaught : option PyException
}.

Section Script.

Variable int_validator : string → option Z.

(** What [chess.pgn.read_game] makes of a text stream with the given
    contents: the games it yields in turn and the error it ends with.
    The PGN reader is not part of this module. *)
Variable pgn_reader : string → Handle.

(** The files that exist, by path, with their stored contents. *)
Variable fs : gmap string string.

(** [open(filepath)]: a text stream over the stored contents of the file. *)
Definition open (filepath : string) : Handle + PyException :=
  match fs !! filepath with
  | Some contents => inl (pgn_reader contents)
  | None => inr (FileNotFoundError filepath)
  end.

(** [parse_pgn(filepath, max_games, report_each)]. *)
Definition parse_pgn (filepath : string) (max_games report_each : Z) : Run :=
  match open filepath with
  | inl handle => parse_pgn_on int_validator max_games report_each handle
  | inr e =>
      {| raised := Some e;
         handle := {| pending := []; fault := None |};
         locals := Loader_init |}
  end.

(** [_main()], after [parser.parse_args()]. *)
Definition _main (args : Namespace) : Process :=
  let run := parse_pgn (INPUT_PGN args) (max_games args) default_report_each in
  match returned run with
  | None =>
      {| printed := stdout (locals run); written := None; uncaught := raised run |}
  | Some (games, damaged_headers, exceptions) =>
      let df := DataFrame_of (map dict games) in
      {| printed :=
           stdout (locals run)
             ++ [Loaded (length games); Found (length exceptions)]
             ++ map (λ eh, ExceptionLine eh.1 eh.2) (zip exceptions damaged_headers)
             ++ [Saving (OUTPUT_CSV args); Saved];
         written := Some (OUTPUT_CSV args, to_csv df false);
         uncaught := None |}
  end.

End Script.

(** ** Assignment to a field

    Whether an instance of a model class accepts [instance.field = value]
    is decided by the configuration of the class. *)

Record Config := { allow_mutation : bool }.

(** The configuration that [pydantic.BaseModel] gives to a class that
    declares none. *)
Definition BaseConfig : Config := {| allow_mutation := true |}.

(** [HeadersData] (lines 25-47) declares no configuration of its own. *)
Definition HeadersData_Config : Config := BaseConfig.

(** The assignments [x.field = v] with a value of the type of the field. *)
Inductive Assignment :=
| set_event_name (v : string)
| set_result (v : string)
| set_termination (v : string)
| set_time_control (v : string)
| set_date (v : string)
| set_time (v : string)
| set_white_name (v : string)
| set_white_title (v : option string)
| set_white_elo (v : Z)
| set_white_elo_diff (v : option Z)
| set_black_name (v : string)
| set_black_title (v : option string)
| set_black_elo (v : Z)
| set_black_elo_diff (v : option Z).

Definition assign (x : HeadersData) (a : Assignment) : HeadersData :=
  match a with
  | set_event_name v =>
      {| event_name := v; result := result x; termination := termination x;
         time_control := time_control x; date := date x; time := time x;
         white_name := white_name x; white_title := white_title x;
         white_elo := white_elo x; white_elo_diff := white_elo_diff x;
         black_name := black_name x; black_title := black_title x;
         black_elo := black_elo x; black_elo_diff := black_elo_diff x |}
  | set_result v =>
      {| event_name := event_name x; result := v; termination := termination x;
         time_control := time_control x; date := date x; time := time x;
         white_name := white_name x; white_title := white_title x;
         white_elo := white_elo x; white_elo_diff := white_elo_diff x;
         black_name := black_name x; black_title := black_title x;
         black_elo := black_elo x; black_elo_diff := black_elo_diff x |}
  | set_termination v =>
      {| event_name := event_name x; result := result x; termination := v;
         time_control := time_control x; date := date x; time := time x;
         white_name := white_name x; white_title := white_title x;
         white_elo := white_elo x; white_elo_diff := white_elo_diff x;
         black_name := black_name x; black_title := black_title x;
         black_elo := black_elo x; black_elo_diff := black_elo_diff x |}
  | set_time_control v =>
      {| event_name := event_name x; result := result x;
         termination := termination x; time_control := v; date := date x;
         time := time x; white_name := white_name x;
         white_title := white_title x; white_elo := white_elo x;
         white_elo_diff := white_elo_diff x; black_name := black_name x;
         black_title := black_title x; black_elo := black_elo x;
         black_elo_diff := black_elo_diff x |}
  | set_date v =>
      {| event_name := event_name x; result := result x;
         termination := termination x; time_control := time_control x;
         date := v; time := time x; white_name := white_name x;
         white_title := white_title x; white_elo := white_elo x;
         white_elo_diff := white_elo_diff x; black_name := black_name x;
         black_title := black_title x; black_elo := black_elo x;
         black_elo_diff := black_elo_diff x |}
  | set_time v =>
      {| event_name := event_name x; result := result x;
         termination := termination x; time_control := time_control x;
         date := date x; time := v; white_name := white_name x;
         white_title := white_title x; white_elo := white_elo x;
         white_elo_diff := white_elo_diff x; black_name := black_name x;
         black_title := black_title x; black_elo := black_elo x;
         black_elo_diff := black_elo_diff x |}
  | set_white_name v =>
      {| event_name := event_name x; result := result x;
         termination := termination x; time_control := time_control x;
         date := date x; time := time x; white_name := v;
         white_title := white_title x; white_elo := white_elo x;
         white_elo_diff := white_elo_diff x; black_name := black_name x;
         black_title := black_title x; black_elo := black_elo x;
         black_elo_diff := black_elo_diff x |}
  | set_white_title v =>
      {| event_name := event_name x; result := result x;
         termination := termination x; time_control := time_control x;
         date := date x; time := time x; white_name := white_name x;
         white_title := v; white_elo := white_elo x;
         white_elo_diff := white_elo_diff x; black_name := black_name x;
         black_title := black_title x; black_elo := black_elo x;
         black_elo_diff := black_elo_diff x |}
  | set_white_elo v =>
      {| event_name := event_name x; result := result x;
         termination := termination x; time_control := time_control x;
         date := date x; time := time x; white_name := white_name x;
         white_title := white_title x; white_elo := v;
         white_elo_diff := white_elo_diff x; black_name := black_name x;
         black_title := black_title x; black_elo := black_elo x;
         black_elo_diff := black_elo_diff x |}
  | set_white_elo_diff v =>
      {| event_name := event_name x; result := result x;
         termination := termination x; time_control := time_control x;
         date := date x; time := time x; white_name := white_name x;
         white_title := white_title x; white_elo := white_elo x;
         white_elo_diff := v; black_name := black_name x;
         black_title := black_title x; black_elo := black_elo x;
         black_elo_diff := black_elo_diff x |}
  | set_black_name v =>
      {| event_name := event_name x; result := result x;
         termination := termination x; time_control := time_control x;
         date := date x; time := time x; white_name := white_name x;
         white_title := white_title x; white_elo := white_elo x;
         white_elo_diff := white_elo_diff x; black_name := v;
         black_title := black_title x; black_elo := black_elo x;
         black_elo_diff := black_elo_diff x |}
  | set_black_title v =>
      {| event_name := event_name x; result := result x;
         termination := termination x; time_control := time_control x;
         date := date x; time := time x; white_name := white_name x;
         white_title := white_title x; white_elo := white_elo x;
         white_elo_diff := white_elo_diff x; black_name := black_name x;
         black_title := v; black_elo := black_elo x;
         black_elo_diff := black_elo_diff x |}
  | set_black_elo v =>
      {| event_name := event_name x; result := result x;
         termination := termination x; time_control := time_control x;
         date := date x; time := time x; white_name := white_name x;
         white_title := white_title x; white_elo := white_elo x;
         white_elo_diff := white_elo_diff x; black_name := black_name x;
         black_title := black_title x; black_elo := v;
         black_elo_diff := black_elo_diff x |}
  | set_black_elo_diff v =>
      {| event_name := event_name x; result := result x;
         termination := termination x; time_control := time_control x;
         date := date x; time := time x; white_name := white_name x;
         white_title := white_title x; white_elo := white_elo x;
         white_elo_diff := white_elo_diff x; black_name := black_name x;
         black_title := black_title x; black_elo := black_elo x;
         black_elo_diff := v |}
  end.

(** [x.field = v]: accepted when the class allows mutation, [TypeError]
    otherwise. *)
Definition setattr (x : HeadersData) (a : Assignment) : HeadersData + PyException :=
  if allow_mutation HeadersData_Config then inl (assign x a) else inr TypeError.

(** ** Vocabulary of the properties *)

Definition succeeds {A B} (r : A + B) : bool :=
  match r with
  | inl _ => true
  | inr _ => false
  end.

(** The tags that [parse_game] reads, by the annotation of the field they
    fill. *)
Definition required_str_tags : list string :=
  ["Event"; "Result"; "Termination"; "TimeControl"; "UTCDate"; "UTCTime";
   "White"; "Black"].
Definition required_int_tags : list string := ["WhiteElo"; "BlackElo"].
Definition optional_int_tags : list string := ["WhiteRatingDiff"; "BlackRatingDiff"].

Definition optional_str_tags : list string := ["WhiteTitle"; "BlackTitle"].

(** All the tags that [parse_game] looks up, lines 54-69. *)
Definition read_tags : list string :=
  required_str_tags ++ required_int_tags ++ optional_str_tags ++ optional_int_tags.

(** The names of the fields of [HeadersData], in declaration order. *)
Definition HeadersData_fields : list string :=
  ["event_name"; "result"; "termination"; "time_control"; "date"; "time";
   "white_name"; "white_title"; "white_elo"; "white_elo_diff";
   "black_name"; "black_title"; "black_elo"; "black_elo_diff"].

Section Vocabulary.

Variable int_validator : string → option Z.

(** A required tag is absent from the headers. *)
Definition missing_required (h : Headers) : bool :=
  existsb (λ k, bool_decide (h !! k = None))
    (required_str_tags ++ required_int_tags).

(** An integer tag, required or optional, is present with a value that
    does not coerce to an integer. *)
Definition fails_coercion (h : Headers) : bool :=
  existsb (λ k, bool_decide (is_Some (h !! k) ∧ h !! k ≫= int_validator = None))
    (required_int_tags ++ optional_int_tags).

(** Every required tag is present, and the required integer tags hold
    values that coerce; nothing is asked of the optional tags. *)
Definition required_fields_valid (h : Headers) : bool :=
  forallb (λ k, bool_decide (is_Some (h !! k))) required_str_tags
  && forallb (λ k, bool_decide (is_Some (h !! k ≫= int_validator))) required_int_tags.

(** Every optional integer tag that is present holds a value that
    coerces. *)
Definition optional_fields_valid (h : Headers) : bool :=
  forallb (λ k, bool_decide (h !! k = None ∨ is_Some (h !! k ≫= int_validator)))
    optional_int_tags.

(** The records of the games that map, in the order of the games. *)
Definition good_records (gs : list Game) : list HeadersData :=
  omap (λ game,
          match parse_game int_validator game with
          | inl data => Some data
          | inr _ => None
          end) gs.

(** The headers and the failure cause of the games that do not map, in
    the order of the games. *)
Definition failures (gs : list Game) : list (Headers * PyException) :=
  omap (λ game,
          match parse_game int_validator game with
          | inl _ => None
          | inr e => Some (headers game, e)
          end) gs.

End Vocabulary.

(** The row of the record [x] in the table made of [records]: its
    fourteen values in declaration order.  The strings, the titles and
    the two ratings are stored as they are; each rating change is
    stored as its column, which holds the rating changes of all the
    records, makes of it. *)
Definition row_of (records : list HeadersData) (x : HeadersData) : list Cell :=
  [ Plain (VStr (event_name x));
    Plain (VStr (result x));
    Plain (VStr (termination x));
    Plain (VStr (time_control x));
    Plain (VStr (date x));
    Plain (VStr (time x));
    Plain (VStr (white_name x));
    Plain (of_optional VStr (white_title x));
    Plain (VInt (white_elo x));
    cell (map (λ y, of_optional VInt (white_elo_diff y)) records)
      (of_optional VInt (white_elo_diff x));
    Plain (VStr (black_name x));
    Plain (of_optional VStr (black_title x));
    Plain (VInt (black_elo x));
    cell (map (λ y, of_optional VInt (black_elo_diff y)) records)
      (of_optional VInt (black_elo_diff x)) ].

(** ** Example data *)

Module Examples.

(** A coercion for the examples: an optional sign and decimal digits. *)
Definition digit (c : ascii) : option Z :=
  let n := Z.of_N (N_of_ascii c) in
  if (48 <=? n) && (n <=? 57) then Some (n - 48) else None.

Fixpoint digits (acc : Z) (s : string) : option Z :=
  match s with
  | EmptyString => Some acc
  | String c rest =>
      match digit c with
      | Some d => digits (10 * acc + d) rest
      | None => None
      end
  end.

Definition decimal_int (s : string) : option Z :=
  match s with
  | EmptyString => None
  | String "+" (String _ _ as rest) => digits 0 rest
  | String "-" (String _ _ as rest) => Z.opp <$> digits 0 rest
  | _ => digits 0 s
  end.

(** A complete game. *)
Definition game_1 : Game :=
  {| headers := list_to_map
       [("Event", "Rated Blitz game"); ("Site", "https://lichess.org/a");
        ("White", "alice"); ("Black", "bob"); ("Result", "1-0");
        ("UTCDate", "2013.01.01"); ("UTCTime", "00:00:01");
        ("WhiteElo", "1500"); ("BlackElo", "1480");
        ("WhiteRatingDiff", "+12"); ("BlackRatingDiff", "-12");
        ("TimeControl", "300+0"); ("Termination", "Normal")] |}.

(** A game with an unknown rating and without a termination tag. *)
Definition game_2 : Game :=
  {| headers := list_to_map
       [("Event", "Rated Blitz game"); ("Site", "https://lichess.org/b");
        ("White", "carol"); ("Black", "dave"); ("Result", "0-1");
        ("UTCDate", "2013.01.01"); ("UTCTime", "00:02:10");
        ("WhiteElo", "?"); ("BlackElo", "1712");
        ("TimeControl", "300+0")] |}.

(** A complete game with a title and without rating changes. *)
Definition game_3 : Game :=
  {| headers := list_to_map
       [("Event", "Rated Bullet game"); ("Site", "https://lichess.org/c");
        ("White", "erin"); ("Black", "frank"); ("Result", "1/2-1/2");
        ("UTCDate", "2013.01.02"); ("UTCTime", "10:15:00");
        ("WhiteElo", "2210"); ("BlackElo", "2190"); ("WhiteTitle", "FM");
        ("TimeControl", "60+0"); ("Termination", "Time forfeit")] |}.

(** Every required tag is valid, one optional rating change is not a
    number. *)
Definition game_bad_diff : Game :=
  {| headers := <["WhiteRatingDiff" := "abc"]> (headers game_1) |}.

Definition record_1 : HeadersData :=
  {| event_name := "Rated Blitz game"; result := "1-0"; termination := "Normal";
     time_control := "300+0"; date := "2013.01.01"; time := "00:00:01";
     white_name := "alice"; white_title := None; white_elo := 1500;
     white_elo_diff := Some 12; black_name := "bob"; black_title := None;
     black_elo := 1480; black_elo_diff := Some (-12) |}.

Definition record_3 : HeadersData :=
  {| event_name := "Rated Bullet game"; result := "1/2-1/2";
     termination := "Time forfeit"; time_control := "60+0";
     date := "2013.01.02"; time := "10:15:00";
     white_name := "erin"; white_title := Some "FM"; white_elo := 2210;
     white_elo_diff := None; black_name := "frank"; black_title := None;
     black_elo := 2190; black_elo_diff := None |}.

Definition cause_2 : PyException :=
  ValidationError [("termination", none_not_allowed); ("white_elo", integer_error)].

Definition three_games : Handle :=
  {| pending := [game_1; game_2; game_3]; fault := None |}.

Definition no_games : Handle := {| pending := []; fault := None |}.

(** A stream that can no longer be read after its first game. *)
Definition broken_stream : Handle :=
  {| pending := [game_1]; fault := Some (StreamError "unreadable") |}.

(** A reader given by a table of known file contents; anything else
    is read as a stream without games. *)
Definition table_reader (table : gmap string Handle) (contents : string) : Handle :=
  default no_games (table !! contents).

Definition reader : string → Handle :=
  table_reader {[ "three games" := three_games ]}.

(** The first bytes of a gzip stream: the magic number 1f 8b and the
    code of the deflate method. *)
Definition gzip_magic : string :=
  String (ascii_of_nat 31) (String (ascii_of_nat 139) (String (ascii_of_nat 8) "")).

Definition files : gmap string string :=
  {[ "empty.pgn" := ""; "games.pgn" := "three games";
     "games.pgn.gz" := gzip_magic ]}.

End Examples.

(** * Properties *)

(** ** The record mapper *)

Lemma succeeds_vap {A B} (f : Validated (A → B)) (x : Validated A) :
  succeeds (f <*> x) = succeeds f && succeeds x.
Proof. by destruct f, x. Qed.

Lemma vap_inl_inv {A B} (f : Validated (A → B)) (x : Validated A) (b : B) :
  f <*> x = inl b → ∃ g a, f = inl g ∧ x = inl a ∧ b = g a.
Proof. destruct f as [g|], x as [a|]; intros [= <-]; eauto. Qed.

Lemma str_field_inl loc v s : str_field loc v = inl s → v = Some s.
Proof. destruct v; intros [= <-]; done. Qed.

Lemma optional_str_field_inl loc v o : optional_str_field loc v = inl o → o = v.
Proof. by intros [= <-]. Qed.

Section RecordMapperProperties.

Variable int_validator : string → option Z.

Lemma int_field_inl loc v n :
  int_field int_validator loc v = inl n → v ≫= int_validator = Some n.
Proof.
  destruct v as [s|]; simpl; [|done].
  destruct (int_validator s); intros [= <-]; done.
Qed.

Lemma optional_int_field_inl loc v o :
  optional_int_field int_validator loc v = inl o → o = v ≫= int_validator.
Proof.
  destruct v as [s|]; simpl; [|by intros [= <-]].
  destruct (int_validator s); intros [= <-]; done.
Qed.

(** The mapper fails exactly on the headers that lack a required tag or
    hold an integer tag that does not coerce. *)
Lemma parse_game_succeeds (game : Game) :
  succeeds (parse_game int_validator game)
  = negb (missing_required (headers game)
          || fails_coercion int_validator (headers game)).
Proof.
  unfold parse_game, HeadersData_init.
  set (h := headers game).
  match goal with
  | |- succeeds (match ?X with _ => _ end) = _ =>
      transitivity (succeeds X); [by destruct X|]
  end.
  rewrite !succeeds_vap.
  unfold missing_required, fails_coercion, required_str_tags,
    required_int_tags, optional_int_tags, str_field, optional_str_field,
    int_field, optional_int_field.
  cbn [existsb app succeeds andb].
  destruct (h !! "Event"); [|done].
  destruct (h !! "Result"); [|done].
  destruct (h !! "Termination"); [|done].
  destruct (h !! "TimeControl"); [|done].
  destruct (h !! "UTCDate"); [|done].
  destruct (h !! "UTCTime"); [|done].
  destruct (h !! "White"); [|done].
  destruct (h !! "Black"); [|by rewrite !andb_false_r].
  destruct (h !! "WhiteElo") as [we|], (h !! "BlackElo") as [be|],
    (h !! "WhiteRatingDiff") as [wd|], (h !! "BlackRatingDiff") as [bd|];
    cbn [mbind option_bind];
    repeat match goal with
      | |- context [int_validator ?s] => destruct (int_validator s)
      end;
    done.
Qed.

(** The same in terms of what is valid: the mapper succeeds exactly when
    the required tags are valid and so are the optional integer tags
    that are present. *)
Lemma parse_game_succeeds_valid (game : Game) :
  succeeds (parse_game int_validator game)
  = required_fields_valid int_validator (headers game)
    && optional_fields_valid int_validator (headers game).
Proof.
  rewrite parse_game_succeeds.
  unfold missing_required, fails_coercion, required_fields_valid,
    optional_fields_valid, required_str_tags, required_int_tags, optional_int_tags.
  set (h := headers game).
  cbn [existsb forallb app].
  destruct (h !! "Event"); [|done].
  destruct (h !! "Result"); [|done].
  destruct (h !! "Termination"); [|done].
  destruct (h !! "TimeControl"); [|done].
  destruct (h !! "UTCDate"); [|done].
  destruct (h !! "UTCTime"); [|done].
  destruct (h !! "White"); [|done].
  destruct (h !! "Black"); [|done].
  destruct (h !! "WhiteElo") as [we|], (h !! "BlackElo") as [be|],
    (h !! "WhiteRatingDiff") as [wd|], (h !! "BlackRatingDiff") as [bd|];
    cbn [mbind option_bind];
    repeat match goal with
      | |- context [int_validator ?s] => destruct (int_validator s)
      end;
    vm_compute; reflexivity.
Qed.

Lemma parse_game_fails (game : Game) :
  missing_required (headers game) || fails_coercion int_validator (headers game) = true →
  ∃ e, parse_game int_validator game = inr e.
Proof.
  intros Hbad. pose proof (parse_game_succeeds game) as Hs.
  rewrite Hbad in Hs. destruct (parse_game int_validator game); [done|eauto].
Qed.

(** The fields of a mapped record, read back from the headers. *)
Lemma parse_game_fields (game : Game) (data : HeadersData) :
  parse_game int_validator game = inl data →
  let h := headers game in
  h !! "Event" = Some (event_name data)
  ∧ h !! "Result" = Some (result data)
  ∧ h !! "Termination" = Some (termination data)
  ∧ h !! "TimeControl" = Some (time_control data)
  ∧ h !! "UTCDate" = Some (date data)
  ∧ h !! "UTCTime" = Some (time data)
  ∧ h !! "White" = Some (white_name data)
  ∧ h !! "WhiteTitle" = white_title data
  ∧ h !! "WhiteElo" ≫= int_validator = Some (white_elo data)
  ∧ h !! "WhiteRatingDiff" ≫= int_validator = white_elo_diff data
  ∧ h !! "Black" = Some (black_name data)
  ∧ h !! "BlackTitle" = black_title data
  ∧ h !! "BlackElo" ≫= int_validator = Some (black_elo data)
  ∧ h !! "BlackRatingDiff" ≫= int_validator = black_elo_diff data.
Proof.
  intros Hp h. unfold parse_game, HeadersData_init in Hp. fold h in Hp.
  match type of Hp with
  | match ?X with _ => _ end = _ => destruct X as [d|] eqn:HX; [|done]
  end.
  injection Hp as ->.
  repeat match goal with
    | H : _ <*> _ = inl _ |- _ =>
        apply vap_inl_inv in H as (? & ? & H & ? & ?)
    end.
  injection HX as <-. subst.
  repeat match goal with
    | H : str_field _ _ = inl _ |- _ => apply str_field_inl in H
    | H : optional_str_field _ _ = inl _ |- _ => apply optional_str_field_inl in H
    | H : int_field _ _ _ = inl _ |- _ => apply int_field_inl in H
    | H : optional_int_field _ _ _ = inl _ |- _ => apply optional_int_field_inl in H
    end.
  simpl. repeat split; congruence.
Qed.

End RecordMapperProperties.

(** ** The batch loader *)

Lemma py_mod_nonzero (a b : Z) : b ≠ 0 → py_mod a b = inl (a mod b).
Proof. intros Hb. unfold py_mod. by rewrite (proj2 (Z.eqb_neq b 0) Hb). Qed.

Section BatchLoaderProperties.

Variable int_validator : string → option Z.

Abbreviation good := (good_records int_validator).
Abbreviation failed := (failures int_validator).

Lemma good_records_cons game gs :
  good (game :: gs)
  = match parse_game int_validator game with
    | inl data => [data]
    | inr _ => []
    end ++ good gs.
Proof.
  unfold good_records. cbn [omap list_omap].
  by destruct (parse_game int_validator game).
Qed.

Lemma failures_cons game gs :
  failed (game :: gs)
  = match parse_game int_validator game with
    | inl _ => []
    | inr e => [(headers game, e)]
    end ++ failed gs.
Proof.
  unfold failures. cbn [omap list_omap].
  by destruct (parse_game int_validator game).
Qed.

Lemma good_records_app gs1 gs2 :
  good (gs1 ++ gs2) = good gs1 ++ good gs2.
Proof. apply omap_app. Qed.

Lemma failures_app gs1 gs2 : failed (gs1 ++ gs2) = failed gs1 ++ failed gs2.
Proof. apply omap_app. Qed.

(** Every game yields either a record or a failure. *)
Lemma good_failures_length gs :
  (length (good gs) + length (failed gs) = length gs)%nat.
Proof.
  induction gs as [|game gs IH]; [done|].
  rewrite good_records_cons, failures_cons, !length_app.
  destruct (parse_game int_validator game); simpl; lia.
Qed.

Section Loop.

Variables max_games report_each : Z.

Abbreviation loop_from := (loop int_validator max_games report_each).
Abbreviation report_at := (report report_each).

(** The line 100 of the source in terms of [read_game]. *)
Lemma loop_read_game gs flt i st :
  loop_from gs flt i st
  = let here := {| pending := gs; fault := flt |} in
    if i <? max_games then
      match report_at i st with
      | inr e => {| raised := Some e; handle := here; locals := st |}
      | inl st =>
          match read_game here with
          | (inl (Some game), next) =>
              loop_from (pending next) (fault next) (i + 1)
                (record_game int_validator game st)
          | (inl None, next) => {| raised := None; handle := next; locals := st |}
          | (inr e, next) => {| raised := Some e; handle := next; locals := st |}
          end
      end
    else {| raised := None; handle := here; locals := st |}.
Proof. destruct gs, flt; reflexivity. Qed.

Lemma report_nonzero i st :
  report_each ≠ 0 →
  report_at i st = inl (if i mod report_each =? 1 then print (Loading i) st else st).
Proof. intros Hr. unfold report. by rewrite py_mod_nonzero. Qed.

Lemma report_zero i st : report_each = 0 → report_at i st = inr ZeroDivisionError.
Proof. intros ->. reflexivity. Qed.

(** What the loop computes from index [i] on, for a reporting period
    other than zero: it takes the first [max_games - i] games, and
    ends with the fault of the stream when it reaches its end. *)
Lemma loop_spec gs flt i st :
  report_each ≠ 0 →
  let n := Z.to_nat (max_games - i) in
  let run := loop_from gs flt i st in
  games (locals run) = games st ++ good (take n gs)
  ∧ damaged_headers (locals run) = damaged_headers st ++ (failed (take n gs)).*1
  ∧ exceptions (locals run) = exceptions st ++ (failed (take n gs)).*2
  ∧ handle run = {| pending := drop n gs; fault := flt |}
  ∧ raised run = if decide (length gs < n)%nat then flt else None.
Proof.
  intros Hr. revert i st.
  induction gs as [|game rest IH]; intros i st; cbn zeta; cbn [loop loop].
  - destruct (Z.ltb_spec i max_games) as [Hlt|Hge].
    + rewrite report_nonzero by done.
      rewrite take_nil, drop_nil, decide_True by (simpl; lia).
      cbn [good_records failures omap list_omap fmap list_fmap].
      rewrite !app_nil_r.
      by destruct flt, (i mod report_each =? 1).
    + rewrite take_nil, drop_nil, decide_False by (simpl; lia).
      cbn [good_records failures omap list_omap fmap list_fmap].
      by rewrite !app_nil_r.
  - destruct (Z.ltb_spec i max_games) as [Hlt|Hge].
    + rewrite report_nonzero by done.
      replace (Z.to_nat (max_games - i))
        with (S (Z.to_nat (max_games - (i + 1)))) by lia.
      destruct (IH (i + 1)
                  (record_game int_validator game
                     (if i mod report_each =? 1 then print (Loading i) st else st)))
        as (Hg & Hd & He & Hh & Hx).
      rewrite Hg, Hd, He, Hh, Hx. cbn [take drop length].
      rewrite good_records_cons, failures_cons.
      unfold record_game.
      destruct (parse_game int_validator game), (i mod report_each =? 1);
        cbn [games damaged_headers exceptions print];
        rewrite ?fmap_app, <- ?app_assoc;
        (repeat split; [done..|]);
        repeat case_decide; (done || lia).
    + replace (Z.to_nat (max_games - i)) with 0%nat by lia.
      rewrite decide_False by lia.
      cbn [take drop good_records failures omap list_omap fmap list_fmap].
      by rewrite !app_nil_r.
Qed.

(** With a reporting period of zero the first iteration raises before
    anything is read.  *)
Lemma loop_zero_period gs flt i st :
  report_each = 0 →
  loop_from gs flt i st
  = {| raised := if i <? max_games then Some ZeroDivisionError else None;
       handle := {| pending := gs; fault := flt |};
       locals := st |}.
Proof.
  intros Hr. destruct gs; cbn [loop];
    destruct (i <? max_games); by rewrite ?report_zero.
Qed.

Lemma record_game_stdout game st :
  stdout (record_game int_validator game st) = stdout st.
Proof. unfold record_game. by destruct (parse_game int_validator game). Qed.

(** The progress lines, for a reporting period other than zero: one
    for each iteration that starts with an index congruent to one;
    the iteration that finds the end of the stream is one of them. *)
Lemma loop_stdout gs flt i st :
  report_each ≠ 0 →
  stdout (locals (loop_from gs flt i st))
  = stdout st
      ++ (Loading <$> filter (λ j, j mod report_each = 1)
                        (seqZ i (Z.min (max_games - i) (Z.of_nat (length gs) + 1)))).
Proof.
  intros Hr. revert i st.
  induction gs as [|game rest IH]; intros i st; cbn [loop].
  - destruct (Z.ltb_spec i max_games) as [Hlt|Hge].
    + rewrite report_nonzero by done.
      replace (Z.min (max_games - i) (Z.of_nat (length (@nil Game)) + 1))
        with 1 by (simpl; lia).
      change (seqZ i 1) with [i]. rewrite filter_cons, filter_nil.
      destruct (Z.eqb_spec (i mod report_each) 1);
        [rewrite decide_True by done|rewrite decide_False by done];
        destruct flt; cbn [locals stdout print fmap list_fmap];
        by rewrite ?app_nil_r.
    + rewrite seqZ_nil by lia. by rewrite filter_nil, app_nil_r.
  - destruct (Z.ltb_spec i max_games) as [Hlt|Hge].
    + rewrite report_nonzero by done.
      rewrite IH, record_game_stdout.
      rewrite (seqZ_cons i) by (cbn [length]; lia).
      replace (Z.pred (Z.min (max_games - i) (Z.of_nat (length (game :: rest)) + 1)))
        with (Z.min (max_games - (i + 1)) (Z.of_nat (length rest) + 1))
        by (cbn [length]; lia).
      rewrite filter_cons. change (Z.succ i) with (i + 1).
      destruct (Z.eqb_spec (i mod report_each) 1);
        [rewrite decide_True by done|rewrite decide_False by done];
        cbn [stdout print fmap list_fmap]; by rewrite <- ?app_assoc.
    + rewrite seqZ_nil by lia. by rewrite filter_nil, app_nil_r.
Qed.

End Loop.

(** The whole run, for a reporting period other than zero. *)
Lemma parse_pgn_on_spec max_games report_each (src : Handle) :
  report_each ≠ 0 →
  let n := Z.to_nat max_games in
  let run := parse_pgn_on int_validator max_games report_each src in
  games (locals run) = good (take n (pending src))
  ∧ damaged_headers (locals run) = (failed (take n (pending src))).*1
  ∧ exceptions (locals run) = (failed (take n (pending src))).*2
  ∧ handle run = {| pending := drop n (pending src); fault := fault src |}
  ∧ raised run = if decide (length (pending src) < n)%nat then fault src else None.
Proof.
  intros Hr. unfold parse_pgn_on.
  pose proof (loop_spec max_games report_each (pending src) (fault src) 0
                Loader_init Hr) as H.
  by rewrite Z.sub_0_r in H.
Qed.

(** A cap of zero or less: the loop body never runs. *)
Lemma parse_pgn_on_no_iteration max_games report_each (src : Handle) :
  max_games ≤ 0 →
  parse_pgn_on int_validator max_games report_each src
  = {| raised := None; handle := src; locals := Loader_init |}.
Proof.
  intros Hm. unfold parse_pgn_on. destruct src as [gs flt].
  destruct gs; cbn [loop pending fault];
    by rewrite (proj2 (Z.ltb_ge 0 max_games) Hm).
Qed.

Lemma pulled_spec max_games report_each (src : Handle) :
  report_each ≠ 0 →
  pulled src (parse_pgn_on int_validator max_games report_each src)
  = Nat.min (Z.to_nat max_games) (length (pending src)).
Proof.
  intros Hr. unfold pulled.
  destruct (parse_pgn_on_spec max_games report_each src Hr) as (_ & _ & _ & -> & _).
  cbn [pending]. rewrite length_drop. lia.
Qed.

(** The local lists at the end of a run, whatever the parameters. *)
Lemma loader_lengths max_games report_each (src : Handle) :
  let run := parse_pgn_on int_validator max_games report_each src in
  (length (games (locals run)) + length (damaged_headers (locals run))
   = pulled src run)%nat
  ∧ length (damaged_headers (locals run)) = length (exceptions (locals run))
  ∧ pending src = take (pulled src run) (pending src) ++ pending (handle run).
Proof.
  cbn zeta. destruct (decide (report_each = 0)) as [Hz|Hr].
  - unfold parse_pgn_on, pulled. rewrite loop_zero_period by done.
    cbn [locals handle pending games damaged_headers exceptions Loader_init length].
    rewrite Nat.sub_diag. done.
  - rewrite pulled_spec by done.
    destruct (parse_pgn_on_spec max_games report_each src Hr)
      as (-> & -> & -> & -> & _).
    cbn [pending]. rewrite !length_fmap.
    pose proof (good_failures_length (take (Z.to_nat max_games) (pending src))) as Hl.
    rewrite length_take in Hl. split_and!; [lia|done|].
    rewrite <- (take_drop (Z.to_nat max_games) (pending src)) at 1.
    f_equal. destruct (decide (Z.to_nat max_games ≤ length (pending src))%nat).
    + by rewrite Nat.min_l.
    + rewrite Nat.min_r by lia. by rewrite !take_ge by lia.
Qed.

End BatchLoaderProperties.

(** The progress lines of a whole run, for a reporting period other than
    zero. *)
Lemma parse_pgn_on_stdout int_validator max_games report_each (src : Handle) :
  report_each ≠ 0 →
  stdout (locals (parse_pgn_on int_validator max_games report_each src))
  = Loading <$> filter (λ j, j mod report_each = 1)
                  (seqZ 0 (Z.min max_games (Z.of_nat (length (pending src)) + 1))).
Proof.
  intros Hr. unfold parse_pgn_on. rewrite loop_stdout by done.
  by rewrite Z.sub_0_r.
Qed.

(** X8.  Changing the reporting period, zero apart, changes nothing but
    the progress lines: the loader returns the same three lists, or
    raises alike, and leaves the handle at the same place. *)
Lemma report_each_only_affects_stdout int_validator max_games period period'
    (src : Handle) :
  period ≠ 0 → period' ≠ 0 →
  let run := parse_pgn_on int_validator max_games period src in
  let run' := parse_pgn_on int_validator max_games period' src in
  returned run = returned run' ∧ handle run = handle run'.
Proof.
  intros Hp Hp' run run'.
  destruct (parse_pgn_on_spec int_validator max_games period src Hp)
    as (Hg & Hd & Hx & Hh & Hr).
  destruct (parse_pgn_on_spec int_validator max_games period' src Hp')
    as (Hg' & Hd' & Hx' & Hh' & Hr').
  unfold returned. fold run in Hg, Hd, Hx, Hh, Hr. fold run' in Hg', Hd', Hx', Hh', Hr'.
  by rewrite Hg, Hd, Hx, Hh, Hr, Hg', Hd', Hx', Hh', Hr'.
Qed.

Lemma report_each_only_affects_stdout_witness :
  returned (parse_pgn_on Examples.decimal_int 2 3 Examples.three_games)
  = returned (parse_pgn_on Examples.decimal_int 2 10000 Examples.three_games)
  ∧ handle (parse_pgn_on Examples.decimal_int 2 3 Examples.three_games)
    = handle (parse_pgn_on Examples.decimal_int 2 10000 Examples.three_games).
Proof.
  apply (report_each_only_affects_stdout Examples.decimal_int 2 3 10000
           Examples.three_games); lia.
Defined.

(** ** The command-line path *)

Lemma dict_keys (x : HeadersData) : (dict x).*1 = HeadersData_fields.
Proof. reflexivity. Qed.

Lemma add_labels_dict (x : HeadersData) :
  add_labels [] (dict x) = HeadersData_fields
  ∧ add_labels HeadersData_fields (dict x) = HeadersData_fields.
Proof. unfold add_labels. rewrite dict_keys. split; vm_compute; reflexivity. Qed.

(** A frame built from at least one record has the fields of the model
    as its columns, in declaration order. *)
Lemma DataFrame_of_columns (x : HeadersData) (xs : list HeadersData) :
  columns (DataFrame_of (dict <$> x :: xs)) = HeadersData_fields.
Proof.
  unfold DataFrame_of. cbn [columns fmap list_fmap foldl].
  rewrite (proj1 (add_labels_dict x)).
  induction xs as [|y ys IH]; [done|].
  cbn [fmap list_fmap foldl]. by rewrite (proj2 (add_labels_dict y)).
Qed.

Lemma to_csv_header (x : HeadersData) (xs : list HeadersData) :
  header_row (to_csv (DataFrame_of (dict <$> x :: xs)) false) = HeadersData_fields.
Proof. unfold to_csv. cbn [header_row]. apply DataFrame_of_columns. Qed.

Lemma parse_pgn_on_empty int_validator max_games :
  parse_pgn_on int_validator max_games default_report_each
    {| pending := []; fault := None |}
  = {| raised := None; handle := {| pending := []; fault := None |};
       locals := Loader_init |}.
Proof. unfold parse_pgn_on. cbn [loop pending fault]. by destruct (0 <? max_games). Qed.

Lemma zip_snd_fst {A B} (l : list (A * B)) :
  zip l.*2 l.*1 = map (λ ab, (ab.2, ab.1)) l.
Proof. induction l as [|[a b] l IH]; [done|]. cbn. by rewrite IH. Qed.

(** The script when the file exists and the loader returns. *)
Lemma main_completes int_validator pgn_reader (fs : gmap string string)
    (args : Namespace) (contents : string) :
  fs !! INPUT_PGN args = Some contents →
  (Z.to_nat (max_games args) ≤ length (pending (pgn_reader contents)))%nat
  ∨ fault (pgn_reader contents) = None →
  let taken := take (Z.to_nat (max_games args)) (pending (pgn_reader contents)) in
  let run := parse_pgn_on int_validator (max_games args) default_report_each
               (pgn_reader contents) in
  _main int_validator pgn_reader fs args
  = {| printed :=
         stdout (locals run)
           ++ [Loaded (length (good_records int_validator taken));
               Found (length (failures int_validator taken))]
           ++ map (λ he, ExceptionLine he.2 he.1) (failures int_validator taken)
           ++ [Saving (OUTPUT_CSV args); Saved];
       written :=
         Some (OUTPUT_CSV args,
               to_csv (DataFrame_of (map dict (good_records int_validator taken)))
                 false);
       uncaught := None |}.
Proof.
  intros Hfile Hret taken run. unfold _main, parse_pgn, open. rewrite Hfile.
  destruct (parse_pgn_on_spec int_validator (max_games args) default_report_each
              (pgn_reader contents)) as (Hg & Hd & Hx & _ & Hraised); [done|].
  fold run taken in Hg, Hd, Hx, Hraised. fold run.
  assert (raised run = None) as Hnone.
  { rewrite Hraised. case_decide; [|done]. destruct Hret; [lia|done]. }
  unfold returned. rewrite Hnone, Hg, Hd, Hx.
  rewrite zip_snd_fst, map_map, !length_fmap. reflexivity.
Qed.

(** * The claims *)

(** C1.  A game that the loader pulls -- the game at position [k] of the
    stream, with [k] below the cap, under a reporting period other than
    zero -- and whose headers lack a required tag or hold an integer tag
    that does not coerce, fails to map with some cause [e].  The loader
    then puts its headers on the damaged list and [e] on the list of
    causes at the same position, no record of it on the good list, and
    goes on with the games after it up to the cap; the only exception
    that can end the run is the fault of the stream itself. *)
Theorem mapping_failure_is_set_aside
    (int_validator : string → option Z) (src : Handle) (k : nat) (game : Game)
    (max_games report_each : Z) :
  pending src !! k = Some game →
  Z.of_nat k < max_games →
  report_each ≠ 0 →
  missing_required (headers game) || fails_coercion int_validator (headers game) = true →
  let run := parse_pgn_on int_validator max_games report_each src in
  let before := take k (pending src) in
  let after := take (Z.to_nat max_games - S k) (drop (S k) (pending src)) in
  ∃ e, parse_game int_validator game = inr e
    ∧ games (locals run)
      = good_records int_validator before ++ good_records int_validator after
    ∧ damaged_headers (locals run)
      = (failures int_validator before).*1
          ++ headers game :: (failures int_validator after).*1
    ∧ exceptions (locals run)
      = (failures int_validator before).*2 ++ e :: (failures int_validator after).*2
    ∧ raised run
      = if decide (length (pending src) < Z.to_nat max_games)%nat
        then fault src else None.
Proof.
  intros Hk Hmax Hr Hbad run before after.
  destruct (parse_game_fails int_validator game Hbad) as [e He]. exists e.
  destruct (parse_pgn_on_spec int_validator max_games report_each src Hr)
    as (Hg & Hd & Hx & _ & Hraised).
  fold run in Hg, Hd, Hx, Hraised.
  assert (take (Z.to_nat max_games) (pending src) = before ++ game :: after) as Htake.
  { subst before after.
    rewrite <- (take_drop_middle (pending src) k game Hk) at 1.
    pose proof (lookup_lt_Some _ _ _ Hk) as Hlen.
    rewrite take_app_ge by (rewrite length_take; lia).
    rewrite length_take, Nat.min_l by lia.
    replace (Z.to_nat max_games - k)%nat with (S (Z.to_nat max_games - S k)) by lia.
    done. }
  rewrite Htake in Hg, Hd, Hx.
  rewrite good_records_app, good_records_cons, He in Hg.
  rewrite failures_app, failures_cons, He, fmap_app in Hd.
  rewrite failures_app, failures_cons, He, fmap_app in Hx.
  done.
Qed.

Lemma mapping_failure_is_set_aside_witness :
  ∃ e, parse_game Examples.decimal_int Examples.game_2 = inr e
    ∧ games (locals (parse_pgn_on Examples.decimal_int 10 10000 Examples.three_games))
      = good_records Examples.decimal_int [Examples.game_1]
          ++ good_records Examples.decimal_int [Examples.game_3]
    ∧ damaged_headers
        (locals (parse_pgn_on Examples.decimal_int 10 10000 Examples.three_games))
      = (failures Examples.decimal_int [Examples.game_1]).*1
          ++ headers Examples.game_2
          :: (failures Examples.decimal_int [Examples.game_3]).*1
    ∧ exceptions
        (locals (parse_pgn_on Examples.decimal_int 10 10000 Examples.three_games))
      = (failures Examples.decimal_int [Examples.game_1]).*2
          ++ e :: (failures Examples.decimal_int [Examples.game_3]).*2
    ∧ raised (parse_pgn_on Examples.decimal_int 10 10000 Examples.three_games) = None.
Proof.
  apply (mapping_failure_is_set_aside Examples.decimal_int Examples.three_games
           1 Examples.game_2 10 10000).
  - reflexivity.
  - lia.
  - lia.
  - vm_compute. reflexivity.
Defined.

(** C2.  Whenever the loader returns, the sequences [good], [damaged] and
    [causes] that it returns satisfy [len(good) + len(damaged)] = number
    of games pulled from the source, and [len(damaged) = len(causes)];
    the games pulled are a prefix of the source. *)
Theorem output_lengths
    (int_validator : string → option Z) (src : Handle) (max_games report_each : Z)
    (good : list HeadersData) (damaged : list Headers) (causes : list PyException) :
  let run := parse_pgn_on int_validator max_games report_each src in
  returned run = Some (good, damaged, causes) →
  (length good + length damaged = pulled src run)%nat
  ∧ length damaged = length causes
  ∧ pending src = take (pulled src run) (pending src) ++ pending (handle run).
Proof.
  intros run Hret. unfold returned in Hret.
  destruct (raised run); [done|]. injection Hret as <- <- <-.
  apply loader_lengths.
Qed.

Lemma output_lengths_witness :
  (length [Examples.record_1; Examples.record_3] + length [headers Examples.game_2]
   = pulled Examples.three_games
       (parse_pgn_on Examples.decimal_int 5 10000 Examples.three_games))%nat
  ∧ length [headers Examples.game_2] = length [Examples.cause_2]
  ∧ pending Examples.three_games
    = take (pulled Examples.three_games
              (parse_pgn_on Examples.decimal_int 5 10000 Examples.three_games))
        (pending Examples.three_games)
      ++ pending (handle (parse_pgn_on Examples.decimal_int 5 10000 Examples.three_games)).
Proof.
  apply (output_lengths Examples.decimal_int Examples.three_games 5 10000
           [Examples.record_1; Examples.record_3] [headers Examples.game_2]
           [Examples.cause_2]).
  vm_compute. reflexivity.
Defined.

(** C3.  The loader pulls games one at a time and stops when the source
    is exhausted or the cap is reached, whichever comes first: for a
    reporting period other than zero it pulls [min(max_games, M)] games
    of a source of [M] games and leaves the rest unread, so exactly
    [N] games when [N <= M] is the cap; with a cap of zero it returns
    three empty sequences and leaves the source as it was; from an empty
    source it returns three empty sequences. *)
Theorem stops_at_cap_or_end_of_source (int_validator : string → option Z) :
  (∀ src max_games report_each,
     report_each ≠ 0 →
     let run := parse_pgn_on int_validator max_games report_each src in
     pulled src run = Nat.min (Z.to_nat max_games) (length (pending src))
     ∧ pending (handle run) = drop (Z.to_nat max_games) (pending src))
  ∧ (∀ src (N : nat) report_each,
       report_each ≠ 0 →
       (N ≤ length (pending src))%nat →
       let run := parse_pgn_on int_validator (Z.of_nat N) report_each src in
       pulled src run = N
       ∧ pending (handle run) = drop N (pending src)
       ∧ raised run = None)
  ∧ (∀ src report_each,
       let run := parse_pgn_on int_validator 0 report_each src in
       returned run = Some ([], [], []) ∧ handle run = src)
  ∧ (∀ max_games report_each,
       report_each ≠ 0 →
       returned (parse_pgn_on int_validator max_games report_each
                   {| pending := []; fault := None |})
       = Some ([], [], [])).
Proof.
  split_and!.
  - intros src max_games report_each Hr run. split.
    + by apply pulled_spec.
    + destruct (parse_pgn_on_spec int_validator max_games report_each src Hr)
        as (_ & _ & _ & Hh & _).
      fold run in Hh. by rewrite Hh.
  - intros src N report_each Hr HN run.
    destruct (parse_pgn_on_spec int_validator (Z.of_nat N) report_each src Hr)
      as (_ & _ & _ & Hh & Hx).
    fold run in Hh, Hx. rewrite Nat2Z.id in Hh, Hx. split_and!.
    + unfold run. rewrite pulled_spec by done. lia.
    + by rewrite Hh.
    + by rewrite Hx, decide_False by lia.
  - intros src report_each run. unfold run.
    by rewrite parse_pgn_on_no_iteration.
  - intros max_games report_each Hr.
    destruct (parse_pgn_on_spec int_validator max_games report_each
                {| pending := []; fault := None |} Hr) as (Hg & Hd & Hx & _ & Hraised).
    unfold returned. rewrite Hg, Hd, Hx, Hraised. cbn [pending fault].
    rewrite take_nil. destruct (decide _); reflexivity.
Qed.

Lemma stops_at_cap_or_end_of_source_witness :
  (pulled Examples.three_games
     (parse_pgn_on Examples.decimal_int 2 10000 Examples.three_games) = 2%nat
   ∧ pending (handle (parse_pgn_on Examples.decimal_int 2 10000 Examples.three_games))
     = [Examples.game_3]
   ∧ raised (parse_pgn_on Examples.decimal_int 2 10000 Examples.three_games) = None)
  ∧ (pulled Examples.three_games
       (parse_pgn_on Examples.decimal_int 5 10000 Examples.three_games) = 3%nat
     ∧ pending (handle (parse_pgn_on Examples.decimal_int 5 10000 Examples.three_games))
       = [])
  ∧ returned (parse_pgn_on Examples.decimal_int 7 10000 Examples.no_games)
    = Some ([], [], []).
Proof.
  destruct (stops_at_cap_or_end_of_source Examples.decimal_int)
    as (Hmin & Hcap & _ & Hempty).
  split; [|split].
  - apply (Hcap Examples.three_games 2%nat 10000); [lia|simpl; lia].
  - apply (Hmin Examples.three_games 5 10000). lia.
  - apply (Hempty 7 10000). lia.
Defined.

(** C4, as amended.  When the headers hold every required tag, every
    required integer tag coerces, and every optional integer tag that is
    present coerces, [parse_game] returns a record, and its fourteen
    fields are the values of the corresponding tags: the string fields
    are the strings of the headers, an absent optional tag gives an empty
    field, and an integer field is the integer that the string of the
    headers coerces to. *)
Theorem well_formed_headers_map_to_their_values
    (int_validator : string → option Z) (game : Game) :
  required_fields_valid int_validator (headers game) = true →
  optional_fields_valid int_validator (headers game) = true →
  ∃ data, parse_game int_validator game = inl data
    ∧ headers game !! "Event" = Some (event_name data)
    ∧ headers game !! "Result" = Some (result data)
    ∧ headers game !! "Termination" = Some (termination data)
    ∧ headers game !! "TimeControl" = Some (time_control data)
    ∧ headers game !! "UTCDate" = Some (date data)
    ∧ headers game !! "UTCTime" = Some (time data)
    ∧ headers game !! "White" = Some (white_name data)
    ∧ headers game !! "WhiteTitle" = white_title data
    ∧ headers game !! "WhiteElo" ≫= int_validator = Some (white_elo data)
    ∧ headers game !! "WhiteRatingDiff" ≫= int_validator = white_elo_diff data
    ∧ headers game !! "Black" = Some (black_name data)
    ∧ headers game !! "BlackTitle" = black_title data
    ∧ headers game !! "BlackElo" ≫= int_validator = Some (black_elo data)
    ∧ headers game !! "BlackRatingDiff" ≫= int_validator = black_elo_diff data.
Proof.
  intros Hreq Hopt.
  pose proof (parse_game_succeeds_valid int_validator game) as Hs.
  rewrite Hreq, Hopt in Hs.
  destruct (parse_game int_validator game) as [data|] eqn:Hp; [|done].
  exists data. split; [done|]. by apply parse_game_fields.
Qed.

Lemma well_formed_headers_map_to_their_values_witness :
  ∃ data, parse_game Examples.decimal_int Examples.game_3 = inl data
    ∧ headers Examples.game_3 !! "Event" = Some (event_name data)
    ∧ headers Examples.game_3 !! "Result" = Some (result data)
    ∧ headers Examples.game_3 !! "Termination" = Some (termination data)
    ∧ headers Examples.game_3 !! "TimeControl" = Some (time_control data)
    ∧ headers Examples.game_3 !! "UTCDate" = Some (date data)
    ∧ headers Examples.game_3 !! "UTCTime" = Some (time data)
    ∧ headers Examples.game_3 !! "White" = Some (white_name data)
    ∧ headers Examples.game_3 !! "WhiteTitle" = white_title data
    ∧ headers Examples.game_3 !! "WhiteElo" ≫= Examples.decimal_int
      = Some (white_elo data)
    ∧ headers Examples.game_3 !! "WhiteRatingDiff" ≫= Examples.decimal_int
      = white_elo_diff data
    ∧ headers Examples.game_3 !! "Black" = Some (black_name data)
    ∧ headers Examples.game_3 !! "BlackTitle" = black_title data
    ∧ headers Examples.game_3 !! "BlackElo" ≫= Examples.decimal_int
      = Some (black_elo data)
    ∧ headers Examples.game_3 !! "BlackRatingDiff" ≫= Examples.decimal_int
      = black_elo_diff data.
Proof.
  apply (well_formed_headers_map_to_their_values Examples.decimal_int Examples.game_3).
  - vm_compute. reflexivity.
  - vm_compute. reflexivity.
Defined.

(** C4 as stated fails: the headers of [Examples.game_bad_diff] hold every
    required tag with a valid value, and the mapper rejects them because
    of the optional tag [WhiteRatingDiff]. *)
Lemma valid_required_fields_do_not_suffice :
  required_fields_valid Examples.decimal_int (headers Examples.game_bad_diff) = true
  ∧ headers Examples.game_bad_diff !! "WhiteRatingDiff" = Some "abc"
  ∧ parse_game Examples.decimal_int Examples.game_bad_diff
    = inr (ValidationError [("white_elo_diff", integer_error)]).
Proof. split_and!; vm_compute; reflexivity. Qed.

(** C5.  The three output sequences follow the arrival order of the games
    and the damaged list and the list of causes are aligned: for a
    reporting period other than zero, the good list holds the records of
    the pulled games that map, in the order of the games, and the damaged
    list paired with the list of causes holds, in the order of the games,
    the headers of each pulled game that does not map next to its own
    cause.  For three games of which only the second fails, the loader
    returns [[record(1), record(3)]], [[headers(2)]] and [[cause(2)]]. *)
Theorem outputs_follow_arrival_order (int_validator : string → option Z) :
  (∀ src max_games report_each,
     report_each ≠ 0 →
     let run := parse_pgn_on int_validator max_games report_each src in
     let taken := take (Z.to_nat max_games) (pending src) in
     games (locals run) = good_records int_validator taken
     ∧ zip (damaged_headers (locals run)) (exceptions (locals run))
       = failures int_validator taken
     ∧ length (damaged_headers (locals run)) = length (exceptions (locals run)))
  ∧ (∀ game1 game2 game3 record1 cause2 record3 max_games report_each,
       report_each ≠ 0 →
       3 ≤ max_games →
       parse_game int_validator game1 = inl record1 →
       parse_game int_validator game2 = inr cause2 →
       parse_game int_validator game3 = inl record3 →
       returned (parse_pgn_on int_validator max_games report_each
                   {| pending := [game1; game2; game3]; fault := None |})
       = Some ([record1; record3], [headers game2], [cause2])).
Proof.
  split.
  - intros src max_games report_each Hr run taken.
    destruct (parse_pgn_on_spec int_validator max_games report_each src Hr)
      as (Hg & Hd & Hx & _).
    fold run taken in Hg, Hd, Hx. rewrite Hg, Hd, Hx.
    by rewrite zip_fst_snd, !length_fmap.
  - intros game1 game2 game3 record1 cause2 record3 max_games report_each
      Hr Hmax H1 H2 H3.
    destruct (parse_pgn_on_spec int_validator max_games report_each
                {| pending := [game1; game2; game3]; fault := None |} Hr)
      as (Hg & Hd & Hx & _ & Hraised).
    unfold returned. rewrite Hg, Hd, Hx, Hraised. cbn [pending fault].
    rewrite take_ge by (simpl; lia).
    rewrite !good_records_cons, !failures_cons, H1, H2, H3.
    destruct (decide _); reflexivity.
Qed.

Lemma outputs_follow_arrival_order_witness :
  (games (locals (parse_pgn_on Examples.decimal_int 2 10000 Examples.three_games))
   = good_records Examples.decimal_int [Examples.game_1; Examples.game_2]
   ∧ zip (damaged_headers
            (locals (parse_pgn_on Examples.decimal_int 2 10000 Examples.three_games)))
         (exceptions
            (locals (parse_pgn_on Examples.decimal_int 2 10000 Examples.three_games)))
     = failures Examples.decimal_int [Examples.game_1; Examples.game_2]
   ∧ length (damaged_headers
               (locals (parse_pgn_on Examples.decimal_int 2 10000 Examples.three_games)))
     = length (exceptions
                 (locals (parse_pgn_on Examples.decimal_int 2 10000 Examples.three_games))))
  ∧ returned (parse_pgn_on Examples.decimal_int default_max_games default_report_each
                Examples.three_games)
    = Some ([Examples.record_1; Examples.record_3],
            [headers Examples.game_2], [Examples.cause_2]).
Proof.
  destruct (outputs_follow_arrival_order Examples.decimal_int) as (Horder & Hthree).
  split.
  - apply (Horder Examples.three_games 2 10000). lia.
  - apply (Hthree Examples.game_1 Examples.game_2 Examples.game_3);
      [unfold default_report_each; lia | unfold default_max_games; lia
      | vm_compute; reflexivity ..].
Defined.

(** C6, at the inputs where the code departs from it.  With a reporting
    period of one the loader prints no progress line at all, however many
    games it pulls; with a period of zero and a positive cap the progress
    check itself raises [ZeroDivisionError] before the first game is
    read, so that nothing is returned. *)
Theorem period_one_is_silent_and_zero_raises
    (int_validator : string → option Z) (src : Handle) (max_games : Z) :
  stdout (locals (parse_pgn_on int_validator max_games 1 src)) = []
  ∧ parse_pgn_on int_validator max_games 0 src
    = {| raised := if 0 <? max_games then Some ZeroDivisionError else None;
         handle := src;
         locals := Loader_init |}.
Proof.
  split.
  - rewrite parse_pgn_on_stdout by done.
    induction (seqZ 0 _) as [|j js IH]; [done|].
    rewrite filter_cons, decide_False; [done|].
    rewrite Z.mod_1_r. done.
  - unfold parse_pgn_on. rewrite loop_zero_period by done. by destruct src.
Qed.

(** C7, at the input where the code departs from it.  When the input
    file holds no game, the script writes a file whose header row has no
    column at all, not the fourteen fields of the model, and no data
    row. *)
Theorem empty_source_writes_no_column
    (int_validator : string → option Z) (pgn_reader : string → Handle)
    (fs : gmap string string) (args : Namespace) (contents : string) :
  fs !! INPUT_PGN args = Some contents →
  pgn_reader contents = {| pending := []; fault := None |} →
  _main int_validator pgn_reader fs args
  = {| printed := [Loaded 0; Found 0; Saving (OUTPUT_CSV args); Saved];
       written := Some (OUTPUT_CSV args, {| header_row := []; data_rows := [] |});
       uncaught := None |}
  ∧ [] ≠ HeadersData_fields.
Proof.
  intros Hfile Hread. split; [|done].
  unfold _main, parse_pgn, open. rewrite Hfile, Hread, parse_pgn_on_empty.
  reflexivity.
Qed.

Lemma empty_source_writes_no_column_witness :
  _main Examples.decimal_int Examples.reader Examples.files
    {| INPUT_PGN := "empty.pgn"; OUTPUT_CSV := "out.csv";
       max_games := default_max_games |}
  = {| printed := [Loaded 0; Found 0; Saving "out.csv"; Saved];
       written := Some ("out.csv", {| header_row := []; data_rows := [] |});
       uncaught := None |}
  ∧ [] ≠ HeadersData_fields.
Proof.
  apply (empty_source_writes_no_column Examples.decimal_int Examples.reader
           Examples.files
           {| INPUT_PGN := "empty.pgn"; OUTPUT_CSV := "out.csv";
              max_games := default_max_games |} "").
  - vm_compute. reflexivity.
  - vm_compute. reflexivity.
Defined.

(** C8, as amended.  The program never changes a record once the mapper
    has built it.  From any point of the loop on, the good list at the
    end of the loop is the list at that point, unchanged, followed by
    the records that [parse_game] returns for the games read from that
    point on, in the order of the games and as [parse_game] returns
    them; so the list that the loader returns holds, for the games it
    pulled, exactly the records that [parse_game] makes of them; and
    the script builds its table from the [dict()] of exactly those
    records. *)
Theorem records_are_returned_as_mapped (int_validator : string → option Z) :
  (∀ max_games report_each games_left fault_ i st,
     games (locals (loop int_validator max_games report_each games_left fault_ i st))
     = games st
         ++ good_records int_validator
              (take (if decide (report_each = 0) then 0%nat
                     else Z.to_nat (max_games - i))
                 games_left))
  ∧ (∀ gs data,
       data ∈ good_records int_validator gs
       ↔ ∃ game, game ∈ gs ∧ parse_game int_validator game = inl data)
  ∧ (∀ src max_games report_each good damaged causes,
       returned (parse_pgn_on int_validator max_games report_each src)
       = Some (good, damaged, causes) →
       good = good_records int_validator
                (take (if decide (report_each = 0) then 0%nat else Z.to_nat max_games)
                   (pending src)))
  ∧ (∀ pgn_reader (fs : gmap string string) args contents,
       fs !! INPUT_PGN args = Some contents →
       (Z.to_nat (max_games args) ≤ length (pending (pgn_reader contents)))%nat
       ∨ fault (pgn_reader contents) = None →
       written (_main int_validator pgn_reader fs args)
       = Some (OUTPUT_CSV args,
               to_csv
                 (DataFrame_of
                    (map dict
                       (good_records int_validator
                          (take (Z.to_nat (max_games args))
                             (pending (pgn_reader contents))))))
                 false)).
Proof.
  assert (∀ max_games report_each games_left fault_ i st,
            games (locals (loop int_validator max_games report_each games_left
                             fault_ i st))
            = games st
                ++ good_records int_validator
                     (take (if decide (report_each = 0) then 0%nat
                            else Z.to_nat (max_games - i))
                        games_left)) as Hloop.
  { intros max_games report_each games_left fault_ i st.
    destruct (decide (report_each = 0)) as [Hz|Hr].
    - rewrite loop_zero_period by done. cbn [locals take].
      by rewrite app_nil_r.
    - by destruct (loop_spec int_validator max_games report_each games_left
                     fault_ i st Hr) as (-> & _). }
  split_and!.
  - exact Hloop.
  - intros gs data. unfold good_records. rewrite list_elem_of_omap.
    split; intros (game & Hin & Hp); exists game; split; try done.
    + by destruct (parse_game int_validator game) as [d|]; simplify_eq.
    + by rewrite Hp.
  - intros src max_games report_each good damaged causes Hret.
    unfold returned in Hret. destruct (raised _); [done|].
    injection Hret as <- _ _. unfold parse_pgn_on.
    rewrite Hloop, Z.sub_0_r. done.
  - intros pgn_reader fs args contents Hfile Hret.
    by rewrite (main_completes int_validator pgn_reader fs args contents Hfile Hret).
Qed.

Lemma records_are_returned_as_mapped_witness :
  [Examples.record_1; Examples.record_3]
  = good_records Examples.decimal_int
      (take (if decide (10000 = 0) then 0%nat else Z.to_nat 5)
         (pending Examples.three_games))
  ∧ written (_main Examples.decimal_int Examples.reader Examples.files
               {| INPUT_PGN := "games.pgn"; OUTPUT_CSV := "out.csv"; max_games := 5 |})
    = Some ("out.csv",
            to_csv
              (DataFrame_of
                 (map dict
                    (good_records Examples.decimal_int
                       (take (Z.to_nat 5) (pending (Examples.reader "three games"))))))
              false).
Proof.
  destruct (records_are_returned_as_mapped Examples.decimal_int)
    as (_ & _ & Hreturned & Hmain).
  split.
  - apply (Hreturned Examples.three_games 5 10000
             [Examples.record_1; Examples.record_3] [headers Examples.game_2]
             [Examples.cause_2]).
    vm_compute. reflexivity.
  - apply (Hmain Examples.reader Examples.files
             {| INPUT_PGN := "games.pgn"; OUTPUT_CSV := "out.csv"; max_games := 5 |}
             "three games").
    + vm_compute. reflexivity.
    + right. reflexivity.
Defined.

(** C8 as stated fails: [Examples.record_1] is the record that
    [parse_game] makes of [Examples.game_1], and the assignment
    [record.white_elo = 0] is accepted and changes its field. *)
Lemma assignment_changes_a_field :
  parse_game Examples.decimal_int Examples.game_1 = inl Examples.record_1
  ∧ ∃ data, setattr Examples.record_1 (set_white_elo 0) = inl data
      ∧ white_elo Examples.record_1 = 1500
      ∧ white_elo data = 0.
Proof. split; [vm_compute; reflexivity|]. eexists. split_and!; reflexivity. Qed.

(** C9, at the input where the code departs from it.  The file at the
    path is opened as it is stored, so when the PGN reader finds no game
    in the stored bytes -- as with the bytes of a compressed file -- the
    loader loads nothing, whatever games the plain file holds. *)
Theorem stored_bytes_without_games_load_nothing
    (int_validator : string → option Z) (pgn_reader : string → Handle)
    (fs : gmap string string) (filepath stored : string)
    (max_games report_each : Z) :
  fs !! filepath = Some stored →
  pending (pgn_reader stored) = [] →
  let run := parse_pgn int_validator pgn_reader fs filepath max_games report_each in
  games (locals run) = []
  ∧ damaged_headers (locals run) = []
  ∧ exceptions (locals run) = [].
Proof.
  intros Hfile Hnone run. unfold run, parse_pgn, open. rewrite Hfile.
  destruct (loader_lengths int_validator max_games report_each (pgn_reader stored))
    as (Hsum & Hlen & _).
  unfold pulled in Hsum. rewrite Hnone in Hsum. cbn [length] in Hsum.
  destruct (games _), (damaged_headers _), (exceptions _); simplify_eq/=; done || lia.
Qed.

Lemma stored_bytes_without_games_load_nothing_witness :
  games (locals (parse_pgn Examples.decimal_int Examples.reader Examples.files
                   "games.pgn.gz" default_max_games default_report_each)) = []
  ∧ damaged_headers
      (locals (parse_pgn Examples.decimal_int Examples.reader Examples.files
                 "games.pgn.gz" default_max_games default_report_each)) = []
  ∧ exceptions
      (locals (parse_pgn Examples.decimal_int Examples.reader Examples.files
                 "games.pgn.gz" default_max_games default_report_each)) = [].
Proof.
  apply (stored_bytes_without_games_load_nothing Examples.decimal_int Examples.reader
           Examples.files "games.pgn.gz" Examples.gzip_magic).
  - vm_compute. reflexivity.
  - vm_compute. reflexivity.
Defined.

(** C10.  With a negative cap the loader returns three empty sequences,
    leaves the source as it was and prints nothing, whatever the reporting
    period: it neither raises nor reads without bound. *)
Theorem negative_cap_pulls_nothing
    (int_validator : string → option Z) (src : Handle) (max_games report_each : Z) :
  max_games < 0 →
  let run := parse_pgn_on int_validator max_games report_each src in
  returned run = Some ([], [], [])
  ∧ handle run = src
  ∧ pulled src run = 0%nat
  ∧ stdout (locals run) = [].
Proof.
  intros Hneg run. unfold run, pulled.
  rewrite parse_pgn_on_no_iteration by lia.
  cbn [handle]. by rewrite Nat.sub_diag.
Qed.

Lemma negative_cap_pulls_nothing_witness :
  returned (parse_pgn_on Examples.decimal_int (-4) 0 Examples.three_games)
  = Some ([], [], [])
  ∧ handle (parse_pgn_on Examples.decimal_int (-4) 0 Examples.three_games)
    = Examples.three_games
  ∧ pulled Examples.three_games
      (parse_pgn_on Examples.decimal_int (-4) 0 Examples.three_games) = 0%nat
  ∧ stdout (locals (parse_pgn_on Examples.decimal_int (-4) 0 Examples.three_games)) = [].
Proof.
  apply (negative_cap_pulls_nothing Examples.decimal_int Examples.three_games (-4) 0).
  lia.
Defined.

(** * Further properties *)

(** ** The record mapper *)

Lemma HeadersData_init_succeeds int_validator a1 a2 a3 a4 a5 a6 a7 a8 a9 a10 a11
    a12 a13 a14 :
  succeeds (HeadersData_init int_validator a1 a2 a3 a4 a5 a6 a7 a8 a9 a10 a11 a12
              a13 a14)
  = succeeds (str_field "event_name" a1) && succeeds (str_field "result" a2)
    && succeeds (str_field "termination" a3)
    && succeeds (str_field "time_control" a4) && succeeds (str_field "date" a5)
    && succeeds (str_field "time" a6) && succeeds (str_field "white_name" a7)
    && succeeds (optional_str_field "white_title" a8)
    && succeeds (int_field int_validator "white_elo" a9)
    && succeeds (optional_int_field int_validator "white_elo_diff" a10)
    && succeeds (str_field "black_name" a11)
    && succeeds (optional_str_field "black_title" a12)
    && succeeds (int_field int_validator "black_elo" a13)
    && succeeds (optional_int_field int_validator "black_elo_diff" a14).
Proof.
  unfold HeadersData_init.
  match goal with
  | |- succeeds (match ?X with _ => _ end) = _ =>
      transitivity (succeeds X); [by destruct X|]
  end.
  by rewrite !succeeds_vap.
Qed.

(** A construction that succeeded still succeeds when an optional
    argument is left out, and gives the same record with that field
    empty. *)
Lemma HeadersData_init_without_optional int_validator a1 a2 a3 a4 a5 a6 a7 a8 a9
    a10 a11 a12 a13 a14 data :
  HeadersData_init int_validator a1 a2 a3 a4 a5 a6 a7 a8 a9 a10 a11 a12 a13 a14
  = inl data →
  HeadersData_init int_validator a1 a2 a3 a4 a5 a6 a7 None a9 a10 a11 a12 a13 a14
  = inl (assign data (set_white_title None))
  ∧ HeadersData_init int_validator a1 a2 a3 a4 a5 a6 a7 a8 a9 None a11 a12 a13 a14
    = inl (assign data (set_white_elo_diff None))
  ∧ HeadersData_init int_validator a1 a2 a3 a4 a5 a6 a7 a8 a9 a10 a11 None a13 a14
    = inl (assign data (set_black_title None))
  ∧ HeadersData_init int_validator a1 a2 a3 a4 a5 a6 a7 a8 a9 a10 a11 a12 a13 None
    = inl (assign data (set_black_elo_diff None)).
Proof.
  intros Hp. pose proof (f_equal succeeds Hp) as Hs.
  rewrite HeadersData_init_succeeds in Hs. revert Hp.
  unfold str_field, optional_str_field, int_field, optional_int_field in Hs.
  destruct a1; [|done]. destruct a2; [|done]. destruct a3; [|done].
  destruct a4; [|done]. destruct a5; [|done]. destruct a6; [|done].
  destruct a7; [|done].
  destruct a9 as [s9|]; [|done].
  destruct (int_validator s9) eqn:E9; [|done].
  destruct a11; [|by destruct a10 as [s10|]; [destruct (int_validator s10)|]].
  destruct a13 as [s13|];
    [|by destruct a10 as [s10|]; [destruct (int_validator s10)|]].
  destruct (int_validator s13) eqn:E13;
    [|by destruct a10 as [s10|]; [destruct (int_validator s10)|]].
  destruct a10 as [s10|]; [destruct (int_validator s10) eqn:E10; [|done]|];
    (destruct a14 as [s14|]; [destruct (int_validator s14) eqn:E14; [|done]|]);
    unfold HeadersData_init; cbn; rewrite ?E9, ?E13, ?E10, ?E14; cbn;
    intros [= <-]; done.
Qed.

(** X1.  [parse_game] returns a record exactly when every required tag is
    present, the two required rating tags coerce to integers, and each
    optional rating-change tag that is present coerces; the title tags
    play no part. *)
Theorem parse_game_succeeds_iff_valid
    (int_validator : string → option Z) (game : Game) :
  (∃ data, parse_game int_validator game = inl data)
  ↔ required_fields_valid int_validator (headers game) = true
    ∧ optional_fields_valid int_validator (headers game) = true.
Proof.
  pose proof (parse_game_succeeds_valid int_validator game) as Hs.
  rewrite <- andb_true_iff, <- Hs.
  destruct (parse_game int_validator game) as [data|e]; cbn [succeeds].
  - split; eauto.
  - split; [intros [? [=]]|done].
Qed.

(** X2.  [parse_game] reads only the fourteen tags of [read_tags]: adding,
    changing or removing any other tag of the headers changes neither
    the record nor the failure. *)
Theorem parse_game_ignores_other_tags
    (int_validator : string → option Z) (h : Headers) (k v : string) :
  k ∉ read_tags →
  parse_game int_validator {| headers := <[k:=v]> h |}
  = parse_game int_validator {| headers := h |}
  ∧ parse_game int_validator {| headers := delete k h |}
    = parse_game int_validator {| headers := h |}.
Proof.
  intros Hk.
  unfold read_tags, required_str_tags, required_int_tags, optional_str_tags,
    optional_int_tags in Hk.
  cbn [app] in Hk. rewrite !not_elem_of_cons in Hk. destruct_and!.
  unfold parse_game. cbn [headers]. split.
  - by rewrite !lookup_insert_ne by done.
  - by rewrite !lookup_delete_ne by done.
Qed.

Lemma parse_game_ignores_other_tags_witness :
  parse_game Examples.decimal_int
    {| headers := <["Site" := "elsewhere"]> (headers Examples.game_1) |}
  = parse_game Examples.decimal_int {| headers := headers Examples.game_1 |}
  ∧ parse_game Examples.decimal_int
      {| headers := delete "Site" (headers Examples.game_1) |}
    = parse_game Examples.decimal_int {| headers := headers Examples.game_1 |}.
Proof.
  apply (parse_game_ignores_other_tags Examples.decimal_int
           (headers Examples.game_1) "Site" "elsewhere").
  vm_compute. intros H. by repeat (inversion_clear H as [|? ? ? H']; rename H' into H).
Defined.

(** X3.  An optional tag may be absent: when headers map to a record,
    the headers without [WhiteTitle], [BlackTitle], [WhiteRatingDiff] or
    [BlackRatingDiff] still map, to the same record with the field of
    that tag empty. *)
Theorem optional_tags_may_be_absent
    (int_validator : string → option Z) (h : Headers) (data : HeadersData) :
  parse_game int_validator {| headers := h |} = inl data →
  parse_game int_validator {| headers := delete "WhiteTitle" h |}
  = inl (assign data (set_white_title None))
  ∧ parse_game int_validator {| headers := delete "WhiteRatingDiff" h |}
    = inl (assign data (set_white_elo_diff None))
  ∧ parse_game int_validator {| headers := delete "BlackTitle" h |}
    = inl (assign data (set_black_title None))
  ∧ parse_game int_validator {| headers := delete "BlackRatingDiff" h |}
    = inl (assign data (set_black_elo_diff None)).
Proof.
  unfold parse_game. cbn [headers]. intros Hp.
  apply HeadersData_init_without_optional in Hp as (H1 & H2 & H3 & H4).
  split_and!;
    rewrite lookup_delete_eq, !lookup_delete_ne by done; assumption.
Qed.

Lemma optional_tags_may_be_absent_witness :
  parse_game Examples.decimal_int
    {| headers := delete "WhiteTitle" (headers Examples.game_3) |}
  = inl (assign Examples.record_3 (set_white_title None))
  ∧ parse_game Examples.decimal_int
      {| headers := delete "WhiteRatingDiff" (headers Examples.game_3) |}
    = inl (assign Examples.record_3 (set_white_elo_diff None))
  ∧ parse_game Examples.decimal_int
      {| headers := delete "BlackTitle" (headers Examples.game_3) |}
    = inl (assign Examples.record_3 (set_black_title None))
  ∧ parse_game Examples.decimal_int
      {| headers := delete "BlackRatingDiff" (headers Examples.game_3) |}
    = inl (assign Examples.record_3 (set_black_elo_diff None)).
Proof.
  apply (optional_tags_may_be_absent Examples.decimal_int (headers Examples.game_3)
           Examples.record_3).
  vm_compute. reflexivity.
Defined.

(** ** The batch loader *)

(** X4.  Raising the cap only extends the outputs: for a reporting period
    other than zero and caps [max_games <= max_games'], each of the three
    lists built with the smaller cap is a prefix of the list built with
    the larger one. *)
Theorem larger_cap_extends_outputs
    (int_validator : string → option Z) (src : Handle)
    (max_games max_games' report_each : Z) :
  report_each ≠ 0 →
  max_games ≤ max_games' →
  let run := parse_pgn_on int_validator max_games report_each src in
  let run' := parse_pgn_on int_validator max_games' report_each src in
  games (locals run) `prefix_of` games (locals run')
  ∧ damaged_headers (locals run) `prefix_of` damaged_headers (locals run')
  ∧ exceptions (locals run) `prefix_of` exceptions (locals run').
Proof.
  intros Hr Hle run run'.
  destruct (parse_pgn_on_spec int_validator max_games report_each src Hr)
    as (Hg & Hd & Hx & _).
  destruct (parse_pgn_on_spec int_validator max_games' report_each src Hr)
    as (Hg' & Hd' & Hx' & _).
  fold run in Hg, Hd, Hx. fold run' in Hg', Hd', Hx'.
  rewrite Hg, Hd, Hx, Hg', Hd', Hx'.
  assert (∃ more, take (Z.to_nat max_games') (pending src)
                  = take (Z.to_nat max_games) (pending src) ++ more) as [more ->].
  { exists (take (Z.to_nat max_games' - Z.to_nat max_games)
              (drop (Z.to_nat max_games) (pending src))).
    rewrite take_take_drop. f_equal. lia. }
  rewrite good_records_app, failures_app, !fmap_app.
  split_and!; apply prefix_app_r; done.
Qed.

Lemma larger_cap_extends_outputs_witness :
  games (locals (parse_pgn_on Examples.decimal_int 1 10000 Examples.three_games))
    `prefix_of`
  games (locals (parse_pgn_on Examples.decimal_int 3 10000 Examples.three_games))
  ∧ damaged_headers
      (locals (parse_pgn_on Examples.decimal_int 1 10000 Examples.three_games))
      `prefix_of`
    damaged_headers
      (locals (parse_pgn_on Examples.decimal_int 3 10000 Examples.three_games))
  ∧ exceptions
      (locals (parse_pgn_on Examples.decimal_int 1 10000 Examples.three_games))
      `prefix_of`
    exceptions
      (locals (parse_pgn_on Examples.decimal_int 3 10000 Examples.three_games)).
Proof.
  apply (larger_cap_extends_outputs Examples.decimal_int Examples.three_games
           1 3 10000); lia.
Defined.

(** X5.  When the loader returns and when it raises.  With a reporting
    period of zero it raises [ZeroDivisionError] as soon as the cap is
    positive.  Otherwise the only exception that leaves it is the fault
    of the stream, and only when the cap lets the loop reach the end of
    the stream: a fault that lies beyond the cap is never met, and no
    mapping failure ever leaves the loader. *)
Theorem loader_raises_only_when
    (int_validator : string → option Z) (src : Handle) (max_games report_each : Z) :
  raised (parse_pgn_on int_validator max_games report_each src)
  = if decide (report_each = 0) then
      if decide (0 < max_games) then Some ZeroDivisionError else None
    else
      if decide (Z.of_nat (length (pending src)) < max_games) then fault src
      else None.
Proof.
  destruct (decide (report_each = 0)) as [Hz|Hr].
  - unfold parse_pgn_on. rewrite loop_zero_period by done. cbn [raised].
    destruct (Z.ltb_spec 0 max_games); by case_decide; try lia.
  - destruct (parse_pgn_on_spec int_validator max_games report_each src Hr)
      as (_ & _ & _ & _ & ->).
    repeat case_decide; done || lia.
Qed.

(** X6.  The progress lines, for a reporting period other than zero: the
    loader prints nothing but progress lines, and it prints the line of
    index [j] exactly when an iteration with that index starts -- [j] is
    below the cap and at most the number of games of the source -- and
    [j % report_each == 1].  So the index 0 is never reported, and the
    line of an index is printed before the game of that index is read,
    even when the stream has no such game. *)
Theorem progress_lines
    (int_validator : string → option Z) (src : Handle) (max_games report_each : Z)
    (m : message) :
  report_each ≠ 0 →
  m ∈ stdout (locals (parse_pgn_on int_validator max_games report_each src))
  ↔ ∃ j, m = Loading j
      ∧ 0 ≤ j < max_games
      ∧ j ≤ Z.of_nat (length (pending src))
      ∧ j mod report_each = 1.
Proof.
  intros Hr. rewrite parse_pgn_on_stdout by done.
  rewrite list_elem_of_fmap. split.
  - intros (j & -> & Hj). apply list_elem_of_filter in Hj as [Hmod Hj].
    apply elem_of_seqZ in Hj. exists j. split_and!; (done || lia).
  - intros (j & -> & Hj & Hlen & Hmod). exists j. split; [done|].
    apply list_elem_of_filter. split; [done|]. apply elem_of_seqZ. lia.
Qed.

Lemma progress_lines_witness :
  Loading 3 ∈ stdout (locals (parse_pgn_on Examples.decimal_int 9 2 Examples.three_games))
  ↔ ∃ j, Loading 3 = Loading j
      ∧ 0 ≤ j < 9
      ∧ j ≤ Z.of_nat (length (pending Examples.three_games))
      ∧ j mod 2 = 1.
Proof.
  apply (progress_lines Examples.decimal_int Examples.three_games 9 2 (Loading 3)).
  lia.
Defined.

(** X7.  A negative reporting period silences the loader: no progress
    line is printed, and the run is otherwise that of any other period. *)
Theorem negative_period_is_silent
    (int_validator : string → option Z) (src : Handle) (max_games report_each : Z) :
  report_each < 0 →
  let run := parse_pgn_on int_validator max_games report_each src in
  stdout (locals run) = []
  ∧ returned run
    = returned (parse_pgn_on int_validator max_games default_report_each src).
Proof.
  intros Hneg run. split.
  - unfold run. rewrite parse_pgn_on_stdout by lia.
    induction (seqZ 0 _) as [|j js IH]; [done|].
    rewrite filter_cons, decide_False; [done|].
    pose proof (Z.mod_neg_bound j report_each Hneg). lia.
  - assert (report_each ≠ 0) as Hr by lia.
    destruct (parse_pgn_on_spec int_validator max_games report_each src Hr)
      as (Hg & Hd & Hx & _ & Hraised).
    destruct (parse_pgn_on_spec int_validator max_games default_report_each src)
      as (Hg' & Hd' & Hx' & _ & Hraised'); [done|].
    unfold returned. fold run in Hg, Hd, Hx, Hraised.
    by rewrite Hg, Hd, Hx, Hraised, Hg', Hd', Hx', Hraised'.
Qed.

Lemma negative_period_is_silent_witness :
  stdout (locals (parse_pgn_on Examples.decimal_int 9 (-2) Examples.three_games)) = []
  ∧ returned (parse_pgn_on Examples.decimal_int 9 (-2) Examples.three_games)
    = returned (parse_pgn_on Examples.decimal_int 9 default_report_each
                  Examples.three_games).
Proof.
  apply (negative_period_is_silent Examples.decimal_int Examples.three_games 9 (-2)).
  lia.
Defined.

(** X12.  Games are mapped independently of one another, so the loader
    distributes over concatenation: for a reporting period other than
    zero and a cap that covers both, the lists built from a stream made
    of the games of one stream followed by the games of another are the
    lists built from the first followed by the lists built from the
    second. *)
Theorem concatenated_sources_concatenate_outputs
    (int_validator : string → option Z) (gs1 gs2 : list Game)
    (max_games report_each : Z) :
  report_each ≠ 0 →
  Z.of_nat (length (gs1 ++ gs2)) ≤ max_games →
  let run_on gs :=
    parse_pgn_on int_validator max_games report_each {| pending := gs; fault := None |} in
  games (locals (run_on (gs1 ++ gs2)))
  = games (locals (run_on gs1)) ++ games (locals (run_on gs2))
  ∧ damaged_headers (locals (run_on (gs1 ++ gs2)))
    = damaged_headers (locals (run_on gs1)) ++ damaged_headers (locals (run_on gs2))
  ∧ exceptions (locals (run_on (gs1 ++ gs2)))
    = exceptions (locals (run_on gs1)) ++ exceptions (locals (run_on gs2))
  ∧ raised (run_on (gs1 ++ gs2)) = None.
Proof.
  intros Hr Hmax run_on. rewrite length_app in Hmax.
  assert (∀ gs, (length gs ≤ Z.to_nat max_games)%nat →
            games (locals (run_on gs)) = good_records int_validator gs
            ∧ damaged_headers (locals (run_on gs)) = (failures int_validator gs).*1
            ∧ exceptions (locals (run_on gs)) = (failures int_validator gs).*2
            ∧ raised (run_on gs) = None) as Hall.
  { intros gs Hlen.
    destruct (parse_pgn_on_spec int_validator max_games report_each
                {| pending := gs; fault := None |} Hr) as (Hg & Hd & Hx & _ & Hraised).
    cbn [pending fault] in *. rewrite take_ge in Hg, Hd, Hx by done.
    split_and!; [done..|]. unfold run_on. rewrite Hraised. by case_decide. }
  destruct (Hall (gs1 ++ gs2)) as (-> & -> & -> & ->); [rewrite length_app; lia|].
  destruct (Hall gs1) as (-> & -> & -> & _); [lia|].
  destruct (Hall gs2) as (-> & -> & -> & _); [lia|].
  by rewrite good_records_app, failures_app, !fmap_app.
Qed.

Lemma concatenated_sources_concatenate_outputs_witness :
  games (locals (parse_pgn_on Examples.decimal_int 5 10000
                   {| pending := [Examples.game_1; Examples.game_2] ++ [Examples.game_3];
                      fault := None |}))
  = games (locals (parse_pgn_on Examples.decimal_int 5 10000
                     {| pending := [Examples.game_1; Examples.game_2]; fault := None |}))
      ++ games (locals (parse_pgn_on Examples.decimal_int 5 10000
                          {| pending := [Examples.game_3]; fault := None |}))
  ∧ damaged_headers
      (locals (parse_pgn_on Examples.decimal_int 5 10000
                 {| pending := [Examples.game_1; Examples.game_2] ++ [Examples.game_3];
                    fault := None |}))
    = damaged_headers
        (locals (parse_pgn_on Examples.decimal_int 5 10000
                   {| pending := [Examples.game_1; Examples.game_2]; fault := None |}))
        ++ damaged_headers
             (locals (parse_pgn_on Examples.decimal_int 5 10000
                        {| pending := [Examples.game_3]; fault := None |}))
  ∧ exceptions
      (locals (parse_pgn_on Examples.decimal_int 5 10000
                 {| pending := [Examples.game_1; Examples.game_2] ++ [Examples.game_3];
                    fault := None |}))
    = exceptions
        (locals (parse_pgn_on Examples.decimal_int 5 10000
                   {| pending := [Examples.game_1; Examples.game_2]; fault := None |}))
        ++ exceptions
             (locals (parse_pgn_on Examples.decimal_int 5 10000
                        {| pending := [Examples.game_3]; fault := None |}))
  ∧ raised (parse_pgn_on Examples.decimal_int 5 10000
              {| pending := [Examples.game_1; Examples.game_2] ++ [Examples.game_3];
                 fault := None |}) = None.
Proof.
  apply (concatenated_sources_concatenate_outputs Examples.decimal_int
           [Examples.game_1; Examples.game_2] [Examples.game_3] 5 10000).
  - lia.
  - simpl. lia.
Defined.

(** ** The command-line path *)

(** In a column of integers an integer is stored as it is. *)
Lemma cell_in_integer_column {A} (f : A → Z) (l : list A) (n : Z) :
  cell (map (λ y, VInt (f y)) l) (VInt n) = Plain (VInt n).
Proof.
  unfold cell.
  assert (existsb is_str (map (λ y, VInt (f y)) l) = false) as ->
    by (induction l; done).
  assert (existsb is_missing (map (λ y, VInt (f y)) l) = false) as ->
    by (induction l; done).
  done.
Qed.

Lemma cell_optional_str column (o : option string) :
  cell column (of_optional VStr o) = Plain (of_optional VStr o).
Proof. by destruct o. Qed.

(** The frame of a list of records: the fields of the model as columns
    as soon as there is a record, and the row of each record. *)
Lemma DataFrame_of_records (xs : list HeadersData) :
  DataFrame_of (map dict xs)
  = {| columns := match xs with [] => [] | _ :: _ => HeadersData_fields end;
       rows := map (row_of xs) xs |}.
Proof.
  destruct xs as [|x xs]; [done|].
  pose proof (DataFrame_of_columns x xs) as Hc.
  change (dict <$> x :: xs) with (map dict (x :: xs)) in Hc.
  unfold DataFrame_of in *. cbn [columns] in Hc. rewrite Hc. f_equal.
  generalize (x :: xs). intros l.
  rewrite map_map. apply map_ext. intros y.
  unfold HeadersData_fields, row_of. cbn [map]. rewrite !map_map.
  repeat (apply (f_equal2 cons));
    first [ reflexivity
          | exact (cell_in_integer_column white_elo l (white_elo y))
          | exact (cell_in_integer_column black_elo l (black_elo y))
          | exact (cell_optional_str _ (white_title y))
          | exact (cell_optional_str _ (black_title y)) ].
Qed.

(** X9.  An input that cannot be read leaves no output file.  When the
    path does not exist the script ends with [FileNotFoundError] before
    anything is printed, whatever the cap, a cap of zero included, since
    the file is opened before the loop.  When the stream fails before
    the cap is reached the script ends with that error: it has printed
    progress lines only, no summary, and the records mapped so far are
    lost. *)
Theorem unreadable_input_writes_no_file
    (int_validator : string → option Z) (pgn_reader : string → Handle)
    (fs : gmap string string) (args : Namespace) :
  (fs !! INPUT_PGN args = None →
   _main int_validator pgn_reader fs args
   = {| printed := []; written := None;
        uncaught := Some (FileNotFoundError (INPUT_PGN args)) |})
  ∧ (∀ contents e,
       fs !! INPUT_PGN args = Some contents →
       fault (pgn_reader contents) = Some e →
       Z.of_nat (length (pending (pgn_reader contents))) < max_games args →
       _main int_validator pgn_reader fs args
       = {| printed :=
              Loading <$> filter (λ j, j mod default_report_each = 1)
                            (seqZ 0 (Z.of_nat (length (pending (pgn_reader contents))) + 1));
            written := None;
            uncaught := Some e |}).
Proof.
  split.
  - intros Hfile. unfold _main, parse_pgn, open. by rewrite Hfile.
  - intros contents e Hfile Hfault Hlen. unfold _main, parse_pgn, open.
    rewrite Hfile.
    destruct (parse_pgn_on_spec int_validator (max_games args) default_report_each
                (pgn_reader contents)) as (_ & _ & _ & _ & Hraised); [done|].
    rewrite decide_True, Hfault in Hraised by lia.
    unfold returned. rewrite Hraised, parse_pgn_on_stdout by done.
    by rewrite Z.min_r by lia.
Qed.

Lemma unreadable_input_writes_no_file_witness :
  _main Examples.decimal_int Examples.reader Examples.files
    {| INPUT_PGN := "absent.pgn"; OUTPUT_CSV := "out.csv"; max_games := 0 |}
  = {| printed := []; written := None;
       uncaught := Some (FileNotFoundError "absent.pgn") |}
  ∧ _main Examples.decimal_int
      (Examples.table_reader {[ "three games" := Examples.broken_stream ]})
      Examples.files
      {| INPUT_PGN := "games.pgn"; OUTPUT_CSV := "out.csv"; max_games := 5 |}
    = {| printed :=
           Loading <$> filter (λ j, j mod default_report_each = 1)
                         (seqZ 0 (Z.of_nat
                                    (length
                                       (pending
                                          (Examples.table_reader
                                             {[ "three games" := Examples.broken_stream ]}
                                             "three games"))) + 1));
         written := None;
         uncaught := Some (StreamError "unreadable") |}.
Proof.
  split.
  - apply (proj1 (unreadable_input_writes_no_file Examples.decimal_int
                    Examples.reader Examples.files
                    {| INPUT_PGN := "absent.pgn"; OUTPUT_CSV := "out.csv";
                       max_games := 0 |})).
    vm_compute. reflexivity.
  - apply (proj2 (unreadable_input_writes_no_file Examples.decimal_int
                    (Examples.table_reader {[ "three games" := Examples.broken_stream ]})
                    Examples.files
                    {| INPUT_PGN := "games.pgn"; OUTPUT_CSV := "out.csv";
                       max_games := 5 |})
             "three games" (StreamError "unreadable")).
    + vm_compute. reflexivity.
    + vm_compute. reflexivity.
    + vm_compute. reflexivity.
Defined.

(** How a rating change is stored, by what its column holds: as the
    integer it is when every record of the table has a rating change
    there, and as a float when some record has none and the rating
    changes of the column are integers that a float holds exactly. *)
Lemma cell_of_rating_change (f : HeadersData → option Z)
    (records : list HeadersData) (n : Z) :
  (Forall (λ y, is_Some (f y)) records →
   cell (map (λ y, of_optional VInt (f y)) records) (VInt n) = Plain (VInt n))
  ∧ (Exists (λ y, f y = None) records →
     Forall (λ y, ∀ m, f y = Some m → - 2 ^ 53 ≤ m ≤ 2 ^ 53) records →
     cell (map (λ y, of_optional VInt (f y)) records) (VInt n) = Float n).
Proof.
  assert (existsb is_str (map (λ y, of_optional VInt (f y)) records) = false) as Hstr.
  { induction records as [|y ys IH]; [done|].
    cbn [map existsb]. by destruct (f y). }
  unfold cell. rewrite Hstr. split.
  - intros Hall.
    assert (existsb is_missing (map (λ y, of_optional VInt (f y)) records) = false)
      as ->; [|done].
    clear Hstr. induction Hall as [|y ys [m Hm] _ IH]; [done|].
    cbn [map existsb]. by rewrite Hm.
  - intros Hsome Hsmall.
    assert (existsb is_missing (map (λ y, of_optional VInt (f y)) records) = true)
      as ->.
    { clear Hstr Hsmall. induction Hsome as [y ys Hy|y ys _ IH]; cbn [map existsb].
      - by rewrite Hy.
      - rewrite IH. apply orb_true_r. }
    assert (forallb exact_as_float (map (λ y, of_optional VInt (f y)) records) = true)
      as ->; [|done].
    clear Hstr Hsome. induction Hsmall as [|y ys Hy _ IH]; [done|].
    cbn [map forallb]. rewrite IH, andb_true_r.
    destruct (f y) as [m|]; [|done]. cbn [of_optional exact_as_float].
    specialize (Hy m eq_refl). rewrite andb_true_iff. lia.
Qed.

(** X10.  The file that the script writes, when the file exists and the
    loader returns (the cap is reached before the end of the stream, or
    the stream ends without error): one data row for each pulled game
    that maps, in the order of the games, and no index column.  The header
    row names the fourteen fields when there is at least one such game;
    it is empty when there is none -- an empty source, a cap of zero or
    less, or games that all fail to map.  A row holds the fourteen values
    of its record in declaration order: the strings, the titles and the
    two ratings as they are, and each rating change as its column stores
    it -- as an integer when every written record has that rating change,
    and as a float ([12.0] for 12) when some written record lacks it,
    the rating changes being integers that a float holds exactly. *)
Theorem main_writes_one_row_per_record
    (int_validator : string → option Z) (pgn_reader : string → Handle)
    (fs : gmap string string) (args : Namespace) (contents : string) :
  fs !! INPUT_PGN args = Some contents →
  (Z.to_nat (max_games args) ≤ length (pending (pgn_reader contents)))%nat
  ∨ fault (pgn_reader contents) = None →
  let good :=
    good_records int_validator
      (take (Z.to_nat (max_games args)) (pending (pgn_reader contents))) in
  written (_main int_validator pgn_reader fs args)
  = Some (OUTPUT_CSV args,
          {| header_row := match good with [] => [] | _ :: _ => HeadersData_fields end;
             data_rows := map (row_of good) good |})
  ∧ (∀ x n,
       white_elo_diff x = Some n →
       (Forall (λ y, is_Some (white_elo_diff y)) good →
        row_of good x !! 9%nat = Some (Plain (VInt n)))
       ∧ (Exists (λ y, white_elo_diff y = None) good →
          Forall (λ y, ∀ m, white_elo_diff y = Some m → - 2 ^ 53 ≤ m ≤ 2 ^ 53) good →
          row_of good x !! 9%nat = Some (Float n)))
  ∧ (∀ x n,
       black_elo_diff x = Some n →
       (Forall (λ y, is_Some (black_elo_diff y)) good →
        row_of good x !! 13%nat = Some (Plain (VInt n)))
       ∧ (Exists (λ y, black_elo_diff y = None) good →
          Forall (λ y, ∀ m, black_elo_diff y = Some m → - 2 ^ 53 ≤ m ≤ 2 ^ 53) good →
          row_of good x !! 13%nat = Some (Float n))).
Proof.
  intros Hfile Hret good. split_and!.
  - rewrite (main_completes int_validator pgn_reader fs args contents Hfile Hret).
    cbn [written]. fold good. by rewrite DataFrame_of_records.
  - intros x n Hx. unfold row_of. cbn [lookup list_lookup]. rewrite Hx.
    cbn [of_optional].
    destruct (cell_of_rating_change white_elo_diff good n) as [Hint Hfloat].
    split; intros; f_equal; auto.
  - intros x n Hx. unfold row_of. cbn [lookup list_lookup]. rewrite Hx.
    cbn [of_optional].
    destruct (cell_of_rating_change black_elo_diff good n) as [Hint Hfloat].
    split; intros; f_equal; auto.
Qed.

Lemma main_writes_one_row_per_record_witness :
  let good :=
    good_records Examples.decimal_int
      (take (Z.to_nat 5) (pending (Examples.reader "three games"))) in
  written (_main Examples.decimal_int Examples.reader Examples.files
             {| INPUT_PGN := "games.pgn"; OUTPUT_CSV := "out.csv"; max_games := 5 |})
  = Some ("out.csv",
          {| header_row := match good with [] => [] | _ :: _ => HeadersData_fields end;
             data_rows := map (row_of good) good |})
  ∧ row_of good Examples.record_1 !! 9%nat = Some (Float 12)
  ∧ row_of [Examples.record_1] Examples.record_1 !! 13%nat = Some (Plain (VInt (-12))).
Proof.
  pose proof (main_writes_one_row_per_record Examples.decimal_int Examples.reader
                Examples.files
                {| INPUT_PGN := "games.pgn"; OUTPUT_CSV := "out.csv"; max_games := 5 |}
                "three games") as H.
  destruct H as (Hfile & Hwhite & _).
  - vm_compute. reflexivity.
  - right. reflexivity.
  - intros good. split_and!.
    + exact Hfile.
    + apply (Hwhite Examples.record_1 12); [reflexivity| |].
      * apply Exists_cons_tl, Exists_cons_hd. reflexivity.
      * apply Forall_cons_2; [intros m [= <-]; lia|].
        apply Forall_cons_2; [intros m [=]|]. apply Forall_nil_2.
    + pose proof (main_writes_one_row_per_record Examples.decimal_int
                    (Examples.table_reader
                       {[ "three games" :=
                            {| pending := [Examples.game_1]; fault := None |} ]})
                    Examples.files
                    {| INPUT_PGN := "games.pgn"; OUTPUT_CSV := "out.csv";
                       max_games := 5 |}
                    "three games") as H.
      destruct H as (_ & _ & Hblack).
      * vm_compute. reflexivity.
      * right. reflexivity.
      * apply (Hblack Examples.record_1 (-12)); [reflexivity|].
        apply Forall_cons_2; [by eexists|]. apply Forall_nil_2.
Defined.

(** X11.  What the script prints, when the file exists and the loader
    returns: the progress lines of the default period of 10000, then the
    number of records and the number of failures, then one line for each
    pulled game that fails to map, in the order of the games, with the
    cause of the failure and the headers of that very game, then the two
    lines about saving. *)
Theorem main_prints_summary
    (int_validator : string → option Z) (pgn_reader : string → Handle)
    (fs : gmap string string) (args : Namespace) (contents : string) :
  fs !! INPUT_PGN args = Some contents →
  (Z.to_nat (max_games args) ≤ length (pending (pgn_reader contents)))%nat
  ∨ fault (pgn_reader contents) = None →
  let taken := take (Z.to_nat (max_games args)) (pending (pgn_reader contents)) in
  printed (_main int_validator pgn_reader fs args)
  = (Loading <$> filter (λ j, j mod 10000 = 1)
                   (seqZ 0 (Z.min (max_games args)
                              (Z.of_nat (length (pending (pgn_reader contents))) + 1))))
      ++ [Loaded (length (good_records int_validator taken));
          Found (length (failures int_validator taken))]
      ++ map (λ he, ExceptionLine he.2 he.1) (failures int_validator taken)
      ++ [Saving (OUTPUT_CSV args); Saved].
Proof.
  intros Hfile Hret taken.
  rewrite (main_completes int_validator pgn_reader fs args contents Hfile Hret).
  cbn [printed]. by rewrite parse_pgn_on_stdout.
Qed.

Lemma main_prints_summary_witness :
  printed (_main Examples.decimal_int Examples.reader Examples.files
             {| INPUT_PGN := "games.pgn"; OUTPUT_CSV := "out.csv";
                max_games := default_max_games |})
  = (Loading <$> filter (λ j, j mod 10000 = 1)
                   (seqZ 0 (Z.min default_max_games
                              (Z.of_nat (length (pending (Examples.reader "three games")))
                               + 1))))
      ++ [Loaded (length (good_records Examples.decimal_int
                            (take (Z.to_nat default_max_games)
                               (pending (Examples.reader "three games")))));
          Found (length (failures Examples.decimal_int
                           (take (Z.to_nat default_max_games)
                              (pending (Examples.reader "three games")))))]
      ++ map (λ he, ExceptionLine he.2 he.1)
           (failures Examples.decimal_int
              (take (Z.to_nat default_max_games)
                 (pending (Examples.reader "three games"))))
      ++ [Saving "out.csv"; Saved].
Proof.
  apply (main_prints_summary Examples.decimal_int Examples.reader Examples.files
           {| INPUT_PGN := "games.pgn"; OUTPUT_CSV := "out.csv";
              max_games := default_max_games |}
           "three games").
  - vm_compute. reflexivity.
  - right. reflexivity.
Defined.

(** ** Examples *)

Example parse_game_1 :
  parse_game Examples.decimal_int Examples.game_1 = inl Examples.record_1.
Proof. vm_compute. reflexivity. Qed.

Example parse_game_2 :
  parse_game Examples.decimal_int Examples.game_2 = inr Examples.cause_2.
Proof. vm_compute. reflexivity. Qed.

Example parse_game_3 :
  parse_game Examples.decimal_int Examples.game_3 = inl Examples.record_3.
Proof. vm_compute. reflexivity. Qed.

Example parse_pgn_on_three_games :
  returned (parse_pgn_on Examples.decimal_int default_max_games default_report_each
              Examples.three_games)
  = Some ([Examples.record_1; Examples.record_3],
          [headers Examples.game_2], [Examples.cause_2]).
Proof. vm_compute. reflexivity. Qed.

Example progress_every_two_games :
  stdout (locals (parse_pgn_on Examples.decimal_int default_max_games 2
                    Examples.three_games))
  = [Loading 1; Loading 3].
Proof. vm_compute. reflexivity. Qed.

Example main_three_games :
  written (_main Examples.decimal_int Examples.reader Examples.files
             {| INPUT_PGN := "games.pgn"; OUTPUT_CSV := "out.csv";
                max_games := default_max_games |})
  = Some ("out.csv",
          {| header_row := HeadersData_fields;
             data_rows :=
               [ [Plain (VStr "Rated Blitz game"); Plain (VStr "1-0");
                  Plain (VStr "Normal"); Plain (VStr "300+0");
                  Plain (VStr "2013.01.01"); Plain (VStr "00:00:01");
                  Plain (VStr "alice"); Plain VNone; Plain (VInt 1500); Float 12;
                  Plain (VStr "bob"); Plain VNone; Plain (VInt 1480); Float (-12)];
                 [Plain (VStr "Rated Bullet game"); Plain (VStr "1/2-1/2");
                  Plain (VStr "Time forfeit"); Plain (VStr "60+0");
                  Plain (VStr "2013.01.02"); Plain (VStr "10:15:00");
                  Plain (VStr "erin"); Plain (VStr "FM"); Plain (VInt 2210);
                  Plain VNone; Plain (VStr "frank"); Plain VNone; Plain (VInt 2190);
                  Plain VNone] ] |}).
Proof. vm_compute. reflexivity. Qed.

Example broken_stream_aborts :
  parse_pgn_on Examples.decimal_int default_max_games default_report_each
    Examples.broken_stream
  = {| raised := Some (StreamError "unreadable");
       handle := {| pending := []; fault := Some (StreamError "unreadable") |};
       locals := {| games := [Examples.record_1]; damaged_headers := [];
                    exceptions := []; stdout := [Loading 1] |} |}.
Proof. vm_compute. reflexivity. Qed.
